(** * The ETR workspace: a shallow embedding of [etos_test_runner/lib/workspace.py]

    The class [Workspace] manipulates three process-wide resources (the
    file system, the current working directory and the environment) and
    talks to a log area collaborator.  The embedding threads them explicitly:

    - [World] is the process state ([fs], [cwd], [environ]);
    - [IO A] is a state monad with exceptions over the [World], in which
      the state survives a raised exception (as in Python);
    - [St] pairs the fields of the [Workspace] object with the [World];
    - [M A] is the same monad over [St]; it also records the calls made to
      the collaborator and to the caller's callbacks as a list of [event]s;
    - [with] blocks over the two [@contextmanager] generators are functions
      that take the body of the block as an argument. *)

From stdpp Require Import base option list strings gmap.

Open Scope string_scope.
Open Scope list_scope.

(** ** Exceptions and results *)

Inductive exn :=
  | FileNotFoundError (msg : string)
  | FileExistsError
  | NotADirectoryError
  | IsADirectoryError
  | ValueError
  | KeyError (key : string)
  | AttributeError
  | UnicodeDecodeError
  | Failure (msg : string).

Inductive result (A : Type) :=
  | Ok (a : A)
  | Raise (e : exn).
Arguments Ok {A} a.
Arguments Raise {A} e.

Definition is_ok {A} (r : result A) : bool :=
  match r with Ok _ => true | Raise _ => false end.

(** ** Paths, as [pathlib] sees them: an anchor and a list of components *)

Record path := Path { absolute : bool; parts : list string }.

#[global] Instance path_eq_dec : EqDecision path.
Proof. solve_decision. Defined.

(** [p.joinpath(name)] for a plain relative component [name]. *)
Definition joinpath (p : path) (name : string) : path :=
  Path (absolute p) (parts p ++ [name]).

(** Boolean prefix test on component lists. *)
Fixpoint is_prefix (xs ys : list string) : bool :=
  match xs, ys with
  | [], _ => true
  | x :: xs', y :: ys' => bool_decide (x = y) && is_prefix xs' ys'
  | _ :: _, [] => false
  end.

(** [p.relative_to(base)]: the anchors must agree and [base] must be a
    prefix of [p]; otherwise [ValueError]. *)
Definition relative_to (p base : path) : result path :=
  if bool_decide (absolute p = absolute base) && is_prefix (parts base) (parts p)
  then Ok (Path false (drop (length (parts base)) (parts p)))
  else Raise ValueError.

(** [p.name]: the last component. *)
Definition name (p : path) : string := List.last (parts p) "".

Fixpoint join_parts (xs : list string) : string :=
  match xs with
  | [] => ""
  | [x] => x
  | x :: xs' => x +:+ "/" +:+ join_parts xs'
  end.

(** [str(p)]. *)
Definition path_str (p : path) : string :=
  if absolute p then "/" +:+ join_parts (parts p)
  else match parts p with [] => "." | _ => join_parts (parts p) end.

(** ** The process: file system, working directory, environment

    The file system maps absolute paths to directories and files; the data
    of a file is its bytes.  [tmp_names] is the stream of candidate names
    that [tempfile] draws from. *)

Inductive node :=
  | Dir
  | File (data : string).

Record World := mkWorld {
  fs : gmap (list string) node;
  cwd : list string;
  environ : gmap string string;
  tmp_names : list string
}.

Definition set_fs (f : gmap (list string) node) (w : World) : World :=
  mkWorld f (cwd w) (environ w) (tmp_names w).
Definition set_cwd (c : list string) (w : World) : World :=
  mkWorld (fs w) c (environ w) (tmp_names w).
Definition set_environ (e : gmap string string) (w : World) : World :=
  mkWorld (fs w) (cwd w) e (tmp_names w).
Definition set_tmp_names (t : list string) (w : World) : World :=
  mkWorld (fs w) (cwd w) (environ w) t.

(** Absolute key of a path: relative paths are read against [cwd]. *)
Definition resolve (w : World) (p : path) : list string :=
  if absolute p then parts p else cwd w ++ parts p.

Definition parent (k : list string) : list string := removelast k.

Definition is_dir (w : World) (p : path) : bool :=
  match fs w !! resolve w p with Some Dir => true | _ => false end.

Definition exists_ (w : World) (p : path) : bool :=
  match fs w !! resolve w p with Some _ => true | None => false end.

(** ** Descriptors, the collaborator, events *)

Record descriptor := Descriptor { d_name : string; d_file : path }.

(** The log area ([etos_test_runner.lib.log_area.LogArea]) is a
    collaborator handed to the object; its code is not part of this
    development and it is taken as a parameter.  It reads the process
    state and sends files to a remote store; whether a call succeeds is its
    own business. *)
Record LogArea := mkLogArea {
  collect : path → World → result (list descriptor);
  upload_logs : list descriptor → World → result unit;
  upload_artifacts : list descriptor → World → result unit
}.

Inductive event :=
  | EvCollect (p : path)
  | EvUploadLogs (ds : list descriptor)
  | EvUploadArtifacts (ds : list descriptor)
  | EvOnCreate (r : result unit)
  | EvYield (d : path).

(** ** The two monads *)

Definition IO (A : Type) : Type := World → result A * World.

#[global] Instance IO_ret : MRet IO := λ A a w, (Ok a, w).
#[global] Instance IO_bind : MBind IO :=
  λ A B k m w, match m w with
               | (Ok a, w1) => k a w1
               | (Raise e, w1) => (Raise e, w1)
               end.

(** [try: body finally: fin].  [fin] always runs; when it raises, its
    exception replaces the outcome of [body]. *)
Definition io_finally {A} (body : IO A) (fin : IO unit) : IO A :=
  λ w, match body w with
       | (r, w1) =>
           match fin w1 with
           | (Ok _, w2) => (r, w2)
           | (Raise e, w2) => (Raise e, w2)
           end
       end.

(** ** Operating system primitives *)

Definition getcwd : IO path := λ w, (Ok (Path true (cwd w)), w).

(** [os.chdir(p)]. *)
Definition chdir (p : path) : IO unit :=
  λ w, match fs w !! resolve w p with
       | Some Dir => (Ok tt, set_cwd (resolve w p) w)
       | Some (File _) => (Raise NotADirectoryError, w)
       | None => (Raise (FileNotFoundError (path_str p)), w)
       end.

(** Creation of an entry under an existing directory. *)
Definition create (k : list string) (n : node) : IO unit :=
  λ w, match fs w !! parent k with
       | Some Dir => (Ok tt, set_fs (<[k := n]> (fs w)) w)
       | Some (File _) => (Raise NotADirectoryError, w)
       | None => (Raise (FileNotFoundError (join_parts k)), w)
       end.

(** [p.mkdir(exist_ok=True)]. *)
Definition mkdir_exist_ok (p : path) : IO unit :=
  λ w, match fs w !! resolve w p with
       | Some Dir => (Ok tt, w)
       | Some (File _) => (Raise FileExistsError, w)
       | None => create (resolve w p) Dir w
       end.

(** [p.touch()]. *)
Definition touch (p : path) : IO unit :=
  λ w, match fs w !! resolve w p with
       | Some _ => (Ok tt, w)
       | None => create (resolve w p) (File "") w
       end.

(** *** Text

    The data of a file is a string of bytes, and a text is kept as the
    bytes of its UTF-8 encoding.  [p.read_text()] opens the file in text
    mode with the encoding of the locale, taken to be UTF-8 (the locale of
    the containers the runner is deployed in, and Python's own choice under
    the C locale): bytes that are not well-formed UTF-8 raise
    [UnicodeDecodeError], and universal newlines turn [CR LF] and a lone
    [CR] into [LF].  Writing a text back through
    [open(mode="a", encoding="utf-8")] on a POSIX system stores its bytes
    as they are. *)

(** Where a UTF-8 decoder stands: at the start of a character, or inside
    one, with the range allowed for the next byte and the number of plain
    continuation bytes after it. *)
Inductive utf8_state :=
  | Utf8Start
  | Utf8Cont (more : nat) (lo hi : N).

Definition utf8_lead (b : N) : option utf8_state :=
  if (b <=? 127)%N then Some Utf8Start
  else if (194 <=? b)%N && (b <=? 223)%N then Some (Utf8Cont 0 128 191)
  else if (b =? 224)%N then Some (Utf8Cont 1 160 191)
  else if (b =? 237)%N then Some (Utf8Cont 1 128 159)
  else if (225 <=? b)%N && (b <=? 239)%N then Some (Utf8Cont 1 128 191)
  else if (b =? 240)%N then Some (Utf8Cont 2 144 191)
  else if (241 <=? b)%N && (b <=? 243)%N then Some (Utf8Cont 2 128 191)
  else if (b =? 244)%N then Some (Utf8Cont 2 128 143)
  else None.

Definition utf8_step (st : utf8_state) (b : N) : option utf8_state :=
  match st with
  | Utf8Start => utf8_lead b
  | Utf8Cont more lo hi =>
      if (lo <=? b)%N && (b <=? hi)%N
      then Some (match more with
                 | O => Utf8Start
                 | S more' => Utf8Cont more' 128 191
                 end)
      else None
  end.

(** Well-formed UTF-8: no stray or missing continuation byte, no overlong
    form, no surrogate, nothing above [U+10FFFF]. *)
Fixpoint utf8_valid_from (st : utf8_state) (data : string) : bool :=
  match data with
  | EmptyString => match st with Utf8Start => true | _ => false end
  | String c rest =>
      match utf8_step st (Ascii.N_of_ascii c) with
      | Some st' => utf8_valid_from st' rest
      | None => false
      end
  end.

Definition utf8_valid (data : string) : bool := utf8_valid_from Utf8Start data.

Definition CR : Ascii.ascii := Ascii.ascii_of_nat 13.
Definition LF : Ascii.ascii := Ascii.ascii_of_nat 10.

(** Universal newlines, as text mode reads them. *)
Fixpoint universal_newlines (text : string) : string :=
  match text with
  | EmptyString => EmptyString
  | String c rest =>
      if Ascii.eqb c CR then
        String LF
          match rest with
          | EmptyString => EmptyString
          | String c' rest' =>
              if Ascii.eqb c' LF then universal_newlines rest'
              else universal_newlines rest
          end
      else String c (universal_newlines rest)
  end.

(** The text read from a file with these bytes. *)
Definition decode_text (data : string) : result string :=
  if utf8_valid data then Ok (universal_newlines data) else Raise UnicodeDecodeError.

(** [p.read_text()]. *)
Definition read_text (p : path) : IO string :=
  λ w, match fs w !! resolve w p with
       | Some (File data) => (decode_text data, w)
       | Some Dir => (Raise IsADirectoryError, w)
       | None => (Raise (FileNotFoundError (path_str p)), w)
       end.

(** [with p.open(mode="a") as f: f.write(text)], in the order Python runs
    it: the file is opened (and created when missing) before [text] is
    evaluated. *)
Definition open_append (p : path) : IO unit :=
  λ w, match fs w !! resolve w p with
       | Some (File _) => (Ok tt, w)
       | Some Dir => (Raise IsADirectoryError, w)
       | None => create (resolve w p) (File "") w
       end.

Definition write_append (p : path) (text : string) : IO unit :=
  λ w, match fs w !! resolve w p with
       | Some (File s) =>
           (Ok tt, set_fs (<[resolve w p := File (s +:+ text)]> (fs w)) w)
       | _ => (Raise (Failure "file is gone"), w)
       end.

(** [environ[key] = value] and [del environ[key]]. *)
Definition setenv (key value : string) : IO unit :=
  λ w, (Ok tt, set_environ (<[key := value]> (environ w)) w).

Definition delenv (key : string) : IO unit :=
  λ w, match environ w !! key with
       | Some _ => (Ok tt, set_environ (delete key (environ w)) w)
       | None => (Raise (KeyError key), w)
       end.

(** [tempfile.mkdtemp(dir=d)]: candidate names are tried in turn until one
    is free; the process holds the stream of candidates in [tmp_names].
    The result is [d] joined with the name that was free, as the Python
    versions of the time of the source have it (it is made absolute from
    3.12 on): for a relative [d] it is a relative path. *)
Fixpoint mkdtemp_from (d : path) (names : list string) (w : World)
    : result path * World :=
  match names with
  | [] => (Raise FileExistsError, set_tmp_names [] w)
  | n :: rest =>
      let file := joinpath d ("tmp" +:+ n) in
      match fs w !! resolve w file with
      | Some _ => mkdtemp_from d rest w
      | None =>
          match create (resolve w file) Dir (set_tmp_names rest w) with
          | (Ok _, w') => (Ok file, w')
          | (Raise e, w') => (Raise e, w')
          end
      end
  end.

Definition mkdtemp (d : path) : IO path :=
  λ w, mkdtemp_from d (tmp_names w) w.

(** [os.makedirs(k)], walking down from [seen]. *)
Fixpoint makedirs_from (seen rest : list string) : IO unit :=
  match rest with
  | [] => mret tt
  | x :: rest' =>
      λ w, match fs w !! (seen ++ [x]) with
           | Some Dir => makedirs_from (seen ++ [x]) rest' w
           | Some (File _) => (Raise NotADirectoryError, w)
           | None => (create (seen ++ [x]) Dir;; makedirs_from (seen ++ [x]) rest') w
           end
  end.

Definition makedirs (k : list string) : IO unit := makedirs_from [] k.

(** ** The object and its state *)

Record Workspace := mkWorkspace {
  log_area : LogArea;
  top_dir : path;
  identifiers : gmap string path;
  global_logs : path;
  global_artifacts : path;
  workspace : option path;
  compressed_workspace : option path
}.

Definition set_identifiers (i : gmap string path) (o : Workspace) : Workspace :=
  mkWorkspace (log_area o) (top_dir o) i (global_logs o) (global_artifacts o)
    (workspace o) (compressed_workspace o).
Definition set_workspace (p : option path) (o : Workspace) : Workspace :=
  mkWorkspace (log_area o) (top_dir o) (identifiers o) (global_logs o)
    (global_artifacts o) p (compressed_workspace o).
Definition set_compressed_workspace (p : option path) (o : Workspace) : Workspace :=
  mkWorkspace (log_area o) (top_dir o) (identifiers o) (global_logs o)
    (global_artifacts o) (workspace o) p.

Record St := mkSt { self : Workspace; os : World }.

Definition M (A : Type) : Type := St → result A * St * list event.

Definition bind {A B} (m : M A) (k : A → M B) : M B :=
  λ s, match m s with
       | (Ok a, s1, t1) =>
           match k a s1 with (r, s2, t2) => (r, s2, t1 ++ t2) end
       | (Raise e, s1, t1) => (Raise e, s1, t1)
       end.

#[global] Instance M_ret : MRet M := λ A a s, (Ok a, s, []).
#[global] Instance M_bind : MBind M := λ A B k m, bind m k.

Definition raise {A} (e : exn) : M A := λ s, (Raise e, s, []).

Definition emit (e : event) : M unit := λ s, (Ok tt, s, [e]).

Definition of_result {A} (r : result A) : M A := λ s, (r, s, []).

Definition try_finally {A} (body : M A) (fin : M unit) : M A :=
  λ s, match body s with
       | (r, s1, t1) =>
           match fin s1 with
           | (Ok _, s2, t2) => (r, s2, t1 ++ t2)
           | (Raise e, s2, t2) => (Raise e, s2, t1 ++ t2)
           end
       end.

(** What a computation returned, where it left the state, what it emitted. *)
Definition result_of {A} (x : result A * St * list event) : result A := x.1.1.
Definition state_of {A} (x : result A * St * list event) : St := x.1.2.
Definition trace_of {A} (x : result A * St * list event) : list event := x.2.

(** A computation on the process, run by the object.  This is also how the
    code of the caller runs: the body of a [with] block and an [on_create]
    callable act on the process and may raise. *)
Definition io {A} (m : IO A) : M A :=
  λ s, match m (os s) with (r, w) => (r, mkSt (self s) w, []) end.

Definition callback := IO unit.

Definition get_self : M Workspace := λ s, (Ok (self s), s, []).

(** A computation that reads the state and may raise. *)
Definition reads {A} (f : St → result A) : M A := λ s, (f s, s, []).

Definition modify_self (f : Workspace → Workspace) : M unit :=
  λ s, (Ok tt, mkSt (f (self s)) (os s), []).

(** [self.logger.info(fmt, p.relative_to(base))]: the logger leaves the
    process alone, but its argument is evaluated and may raise. *)
Definition logger_info_relative (p base : path) : M unit :=
  _ ← of_result (relative_to p base); mret tt.

(** Calls to the collaborator, recorded as they are made. *)
Definition la_collect (p : path) : M (list descriptor) :=
  emit (EvCollect p);;
  reads (λ s, collect (log_area (self s)) p (os s)).

Definition la_upload_logs (ds : list descriptor) : M unit :=
  emit (EvUploadLogs ds);;
  reads (λ s, upload_logs (log_area (self s)) ds (os s)).

Definition la_upload_artifacts (ds : list descriptor) : M unit :=
  emit (EvUploadArtifacts ds);;
  reads (λ s, upload_artifacts (log_area (self s)) ds (os s)).

(** [Workspace.__init__]. *)
Definition init (la : LogArea) (w : World) : St :=
  let top := Path true (cwd w) in
  let logs := joinpath top "logs" in
  let artifacts := joinpath top "artifacts" in
  mkSt (mkWorkspace la top ∅ logs artifacts None None)
       (set_environ
          (<["GLOBAL_ARTIFACTS" := path_str artifacts]>
             (<["GLOBAL_LOGS" := path_str logs]> (environ w))) w).

(** [Workspace.__enter__]. *)
Definition enter (p : option path) : M unit :=
  o ← get_self;
  let ws := match p with Some p' => p' | None => joinpath (top_dir o) "workspace" end in
  modify_self (set_workspace (Some ws));;
  logger_info_relative ws (top_dir o);;
  io (mkdir_exist_ok ws);;
  io (mkdir_exist_ok (global_logs o));;
  io (mkdir_exist_ok (global_artifacts o));;
  logger_info_relative ws (top_dir o);;
  io (chdir ws).

(** The guard shared by [test_directory] and [compress]. *)
Definition require_workspace : M path :=
  λ s, match workspace (self s) with
       | Some ws =>
           if is_dir (os s) ws then (Ok ws, s, [])
           else (Raise (FileNotFoundError "Workspace not created."), s, [])
       | None => (Raise (FileNotFoundError "Workspace not created."), s, [])
       end.

(** [Workspace.add_to_full_log]. *)
Definition add_to_full_log (report : path) : M unit :=
  o ← get_self;
  present ← reads (λ s, Ok (exists_ (os s) report));
  if present : bool then
    let full_execution := joinpath (global_logs o) "full_execution.log" in
    io (touch full_execution);;
    io (open_append full_execution);;
    text ← io (read_text report);
    io (write_append full_execution text)
  else mret tt.

(** [Workspace.collect_logs], a generator-based context manager without
    [try]: what follows [yield] runs only when the block ends normally. *)
Definition collect_logs (base_path : path) (block : M unit) : M unit :=
  let log_path := joinpath base_path "logs" in
  let artifact_path := joinpath base_path "artifacts" in
  io (mkdir_exist_ok log_path);;
  io (mkdir_exist_ok artifact_path);;
  io (setenv "TEST_ARTIFACT_PATH" (path_str artifact_path));;
  io (setenv "ARTIFACT_PATH" (path_str artifact_path));;
  io (setenv "LOG_PATH" (path_str log_path));;
  block;;
  io (delenv "TEST_ARTIFACT_PATH");;
  io (delenv "ARTIFACT_PATH");;
  io (delenv "LOG_PATH");;
  add_to_full_log (joinpath log_path "test_output.log");;
  logs ← la_collect log_path;
  la_upload_logs logs;;
  artifacts ← la_collect artifact_path;
  la_upload_artifacts artifacts.

(** The call of [on_create] with its arguments, recorded with its outcome. *)
Definition call_on_create (f : callback) : M unit :=
  λ s, match f (os s) with (r, w) => (r, mkSt (self s) w, [EvOnCreate r]) end.

(** [yield d]: the caller's block runs with the directory it was given. *)
Definition yield_to (block : path → callback) (d : path) : M unit :=
  emit (EvYield d);; io (block d).

(** The protected block of [test_directory]: bind the identifier on its
    first visit, move into its directory and run the caller's block under
    [collect_logs]. *)
Definition visit (ws : path) (identifier : string) (on_create : option callback)
    (block : path → callback) : M unit :=
  o ← get_self;
  match identifiers o !! identifier with
  | None =>
      directory ← io (mkdtemp ws);
      logger_info_relative directory (top_dir o);;
      modify_self (λ o', set_identifiers (<[identifier := directory]> (identifiers o')) o');;
      logger_info_relative directory (top_dir o);;
      io (chdir directory);;
      match on_create with
      | Some f => call_on_create f
      | None => mret tt
      end
  | Some d =>
      logger_info_relative d (top_dir o);;
      logger_info_relative d (top_dir o);;
      io (chdir d)
  end;;
  o' ← get_self;
  match identifiers o' !! identifier with
  | Some d => collect_logs d (yield_to block d)
  | None => raise AttributeError
  end.

(** The [finally] clause of [test_directory]. *)
Definition leave : M unit :=
  o ← get_self;
  match workspace o with
  | Some ws => logger_info_relative ws (top_dir o);; io (chdir ws)
  | None => raise AttributeError
  end.

(** [Workspace.test_directory]: [with ws.test_directory(identifier,
    on_create) as d: block d]. *)
Definition test_directory (identifier : string) (on_create : option callback)
    (block : path → callback) : M unit :=
  ws ← require_workspace;
  try_finally (visit ws identifier on_create block) leave.

(** ** Archives ([shutil.make_archive], format [gztar])

    The library function as the Python versions of the time of the source
    (3.6 to 3.9) run it: [base_name] is made absolute, the process moves
    into [root_dir], the tar file [base_name.tar.gz] is opened and
    [base_dir], read against the new working directory, is added to it;
    the working directory is restored in a [finally] and the name of the
    archive is returned.  The bytes of a compressed tar file are left
    abstract: [gztar] maps the list of members (name inside the archive,
    content) to the file data of one writing.  The compressed stream also
    carries the time at which it is written, so [gztar] stands for the
    bytes of a single call: a statement about the data of two archives
    gives each call a [gztar] of its own.  Members are listed in the order
    of the map, not in the order [tarfile] walks the tree; nothing below
    depends on it. *)
Section Archive.

Variable gztar : list (list string * node) → string.

Definition add_suffix (k : list string) (suffix : string) : list string :=
  parent k ++ [List.last k "" +:+ suffix].

(** What [tar.add(base_dir)] stores: every entry at or below [base_dir],
    named as [base_dir] followed by its position below it; the archive
    never stores itself. *)
Definition tar_members (w : World) (base_dir : path) (archive : list string)
    : list (list string * node) :=
  omap (λ kn : list string * node,
          if is_prefix (resolve w base_dir) kn.1 && negb (bool_decide (kn.1 = archive))
          then Some (parts base_dir ++ drop (length (resolve w base_dir)) kn.1, kn.2)
          else None)
       (map_to_list (fs w)).

Definition write_file (k : list string) (data : string) : IO unit :=
  λ w, match fs w !! k with
       | Some Dir => (Raise IsADirectoryError, w)
       | Some (File _) => (Ok tt, set_fs (<[k := File data]> (fs w)) w)
       | None => create k (File data) w
       end.

Definition ensure_dir (k : list string) : IO unit :=
  λ w, match fs w !! k with
       | Some _ => (Ok tt, w)
       | None => makedirs k w
       end.

Definition lstat (p : path) : IO unit :=
  λ w, if exists_ w p then (Ok tt, w)
       else (Raise (FileNotFoundError (path_str p)), w).

Definition write_members (archive : list string) (base_dir : path) : IO unit :=
  λ w, write_file archive (gztar (tar_members w base_dir archive)) w.

Definition tar_add (archive : list string) (base_dir : path) : IO unit :=
  lstat base_dir;;
  write_members archive base_dir.

Definition make_tarball (base_name : list string) (base_dir : path) : IO path :=
  let archive_name := add_suffix base_name ".tar.gz" in
  ensure_dir (parent archive_name);;
  write_file archive_name (gztar []);;
  tar_add archive_name base_dir;;
  mret (Path true archive_name).

Definition abspath (p : path) : IO (list string) :=
  λ w, (Ok (resolve w p), w).

Definition make_archive (base_name root_dir base_dir : path) : IO path :=
  save_cwd ← getcwd;
  abs_name ← abspath base_name;
  chdir root_dir;;
  io_finally (make_tarball abs_name base_dir) (chdir save_cwd).

(** [Workspace.compress]. *)
Definition compress : M unit :=
  ws ← require_workspace;
  o ← get_self;
  cwd1 ← io getcwd;
  compressed ← of_result (relative_to (joinpath (top_dir o) "workspace") cwd1);
  cwd2 ← io getcwd;
  root_dir ← of_result (relative_to (top_dir o) cwd2);
  cwd3 ← io getcwd;
  base_dir ← of_result (relative_to ws cwd3);
  filename ← io (make_archive compressed root_dir base_dir);
  modify_self (set_compressed_workspace (Some filename)).

(** [Workspace.__exit__]; the exception the block may have raised is
    passed in and ignored. *)
Definition exit_ : M unit :=
  o ← get_self;
  io (chdir (top_dir o));;
  compress;;
  logs ← la_collect (global_logs o);
  la_upload_logs logs;;
  artifacts ← la_collect (global_artifacts o);
  la_upload_artifacts artifacts;;
  o' ← get_self;
  match compressed_workspace o' with
  | Some cw => la_upload_artifacts [Descriptor (name cw) cw]
  | None => raise AttributeError
  end.

(** ** Runs: what a caller may do with a workspace *)

Inductive method :=
  | Enter (p : option path)
  | Exit
  | TestDirectory (identifier : string) (on_create : option callback)
      (block : path → callback)
  | Compress
  | AddToFullLog (report : path)
  | Caller (f : callback).

Definition run_method (c : method) : M unit :=
  match c with
  | Enter p => enter p
  | Exit => exit_
  | TestDirectory i f b => test_directory i f b
  | Compress => compress
  | AddToFullLog r => add_to_full_log r
  | Caller f => io f
  end.

(** A caller that goes on after an exception (it caught it). *)
Fixpoint run (cs : list method) (s : St) : St * list event :=
  match cs with
  | [] => (s, [])
  | c :: cs' =>
      match run_method c s with
      | (_, s1, t1) => match run cs' s1 with (s2, t2) => (s2, t1 ++ t2) end
      end
  end.

End Archive.

(** * Properties *)

(** ** Running the monad, one step at a time *)

Lemma bind_ok {A B} (m : M A) (k : A → M B) s a s1 t1 :
  m s = (Ok a, s1, t1) →
  (m ≫= k) s = (result_of (k a s1), state_of (k a s1), t1 ++ trace_of (k a s1)).
Proof.
  intros E. unfold mbind, M_bind, bind. rewrite E.
  by destruct (k a s1) as [[r s2] t2].
Qed.

Lemma bind_raise {A B} (m : M A) (k : A → M B) s e s1 t1 :
  m s = (Raise e, s1, t1) → (m ≫= k) s = (Raise e, s1, t1).
Proof. intros E. unfold mbind, M_bind, bind. by rewrite E. Qed.

Lemma try_finally_state {A} (body : M A) (fin : M unit) s :
  state_of (try_finally body fin s) = state_of (fin (state_of (body s))).
Proof.
  unfold try_finally, state_of. destruct (body s) as [[r s1] t1]. simpl.
  by destruct (fin s1) as [[[|] s2] t2].
Qed.

Lemma try_finally_trace {A} (body : M A) (fin : M unit) s :
  trace_of (try_finally body fin s)
  = trace_of (body s) ++ trace_of (fin (state_of (body s))).
Proof.
  unfold try_finally, trace_of, state_of. destruct (body s) as [[r s1] t1]. simpl.
  by destruct (fin s1) as [[[|] s2] t2].
Qed.

Lemma io_self {A} (m : IO A) s : self (state_of (io m s)) = self s.
Proof. unfold io, state_of. by destruct (m (os s)). Qed.

Lemma io_trace {A} (m : IO A) s : trace_of (io m s) = [].
Proof. unfold io, trace_of. by destruct (m (os s)). Qed.

Lemma io_os {A} (m : IO A) s : os (state_of (io m s)) = (m (os s)).2.
Proof. unfold io, state_of. by destruct (m (os s)). Qed.

Lemma io_result {A} (m : IO A) s : result_of (io m s) = (m (os s)).1.
Proof. unfold io, result_of. by destruct (m (os s)). Qed.

(** Unfold the plumbing of the monad. *)
Ltac msimpl :=
  unfold state_of, result_of, trace_of, logger_info_relative, mbind, M_bind, bind,
    of_result, mret, M_ret, io, get_self, reads, emit, raise, modify_self,
    try_finally;
  simpl.

(** ** Frames on the object

    [frames R m]: whatever [m] does, it takes the fields of the object from
    [o] to some [o'] with [R o o']. *)

Definition frames {A} (R : relation Workspace) (m : M A) : Prop :=
  ∀ s, R (self s) (self (state_of (m s))).

Section Frames.
Context (R : relation Workspace) `{!PreOrder R}.

Lemma frames_ret {A} (a : A) : frames R (mret a).
Proof. intros s. reflexivity. Qed.

Lemma frames_raise {A} e : frames R (raise e : M A).
Proof. intros s. reflexivity. Qed.

Lemma frames_emit e : frames R (emit e).
Proof. intros s. reflexivity. Qed.

Lemma frames_of_result {A} (r : result A) : frames R (of_result r).
Proof. intros s. reflexivity. Qed.

Lemma frames_reads {A} (f : St → result A) : frames R (reads f).
Proof. intros s. reflexivity. Qed.

Lemma frames_get_self : frames R get_self.
Proof. intros s. reflexivity. Qed.

Lemma frames_require_workspace : frames R require_workspace.
Proof.
  intros s. unfold require_workspace.
  destruct (workspace (self s)); [destruct (is_dir _ _)|]; reflexivity.
Qed.

Lemma frames_io {A} (m : IO A) : frames R (io m).
Proof. intros s. rewrite io_self. reflexivity. Qed.

Lemma frames_call_on_create f : frames R (call_on_create f).
Proof.
  intros s. unfold call_on_create, state_of. destruct (f (os s)). reflexivity.
Qed.

Lemma frames_modify_self f : (∀ o, R o (f o)) → frames R (modify_self f).
Proof. intros H s. apply H. Qed.

Lemma frames_bind {A B} (m : M A) (k : A → M B) :
  frames R m → (∀ a, frames R (k a)) → frames R (m ≫= k).
Proof.
  intros Hm Hk s. specialize (Hm s).
  destruct (m s) as [[[a|e] s1] t1] eqn:E.
  - rewrite (bind_ok _ _ _ _ _ _ E). etrans; [exact Hm|]. apply Hk.
  - by rewrite (bind_raise _ _ _ _ _ _ E).
Qed.

Lemma frames_try_finally {A} (body : M A) fin :
  frames R body → frames R fin → frames R (try_finally body fin).
Proof.
  intros Hb Hf s. rewrite try_finally_state.
  etrans; [apply Hb | apply Hf].
Qed.
End Frames.

Create HintDb frames discriminated.
#[global] Hint Resolve frames_ret frames_raise frames_emit frames_of_result
  frames_reads frames_get_self frames_require_workspace frames_io
  frames_call_on_create : frames.

(** Break a computation down to its primitives. *)
Ltac frames_steps :=
  repeat first
    [ match goal with |- ∀ _, _ => intro end
    | solve [eauto with frames typeclass_instances]
    | apply frames_bind
    | apply frames_try_finally
    | match goal with
      | |- frames _ (match ?x with _ => _ end) => destruct x
      end ].

(** The fields that are set once, in [__init__]. *)
Definition layout (o o' : Workspace) : Prop :=
  log_area o' = log_area o ∧ top_dir o' = top_dir o ∧
  global_logs o' = global_logs o ∧ global_artifacts o' = global_artifacts o.

(** ... and the workspace directory, set in [__enter__]. *)
Definition layout_ws (o o' : Workspace) : Prop :=
  layout o o' ∧ workspace o' = workspace o.

#[global] Instance layout_preorder : PreOrder layout.
Proof.
  split; [by intros o|].
  intros o1 o2 o3 (?&?&?&?) (?&?&?&?). unfold layout. repeat split; congruence.
Qed.

#[global] Instance layout_ws_preorder : PreOrder layout_ws.
Proof.
  split; [by intros o|].
  intros o1 o2 o3 [H1 ?] [H2 ?]. split; [by etrans|congruence].
Qed.

Lemma frames_eq_weaken {A} (R : relation Workspace) `{!Reflexive R} (m : M A) :
  frames eq m → frames R m.
Proof. intros H s. rewrite <- (H s). reflexivity. Qed.

Lemma add_to_full_log_self report : frames eq (add_to_full_log report).
Proof. unfold add_to_full_log. frames_steps. Qed.

Lemma la_collect_self p : frames eq (la_collect p).
Proof. unfold la_collect. frames_steps. Qed.

Lemma la_upload_logs_self ds : frames eq (la_upload_logs ds).
Proof. unfold la_upload_logs. frames_steps. Qed.

Lemma la_upload_artifacts_self ds : frames eq (la_upload_artifacts ds).
Proof. unfold la_upload_artifacts. frames_steps. Qed.

#[global] Hint Resolve add_to_full_log_self la_collect_self la_upload_logs_self
  la_upload_artifacts_self : frames.

Lemma collect_logs_self base block :
  frames eq block → frames eq (collect_logs base block).
Proof. intros Hb. unfold collect_logs. frames_steps. Qed.

Lemma leave_self : frames eq leave.
Proof. unfold leave, logger_info_relative. frames_steps. Qed.

Lemma visit_layout ws i f b : frames layout_ws (visit ws i f b).
Proof.
  unfold visit, yield_to, logger_info_relative. frames_steps.
  apply frames_modify_self. by intros o.
Qed.

Lemma leave_layout : frames layout_ws leave.
Proof. apply frames_eq_weaken; [apply _|]. apply leave_self. Qed.

#[global] Hint Resolve visit_layout leave_layout : frames.

Lemma test_directory_layout i f b : frames layout_ws (test_directory i f b).
Proof. unfold test_directory. frames_steps. Qed.

(** ** The workspace guard *)

(** The workspace has been entered: its directory is recorded, lies under
    [top_dir] as [__enter__] checks, and exists. *)
Definition entered (s : St) (ws : path) : Prop :=
  workspace (self s) = Some ws ∧ absolute ws = true ∧
  is_ok (relative_to ws (top_dir (self s))) = true ∧
  is_dir (os s) ws = true.

Lemma require_workspace_ok s ws :
  workspace (self s) = Some ws → is_dir (os s) ws = true →
  require_workspace s = (Ok ws, s, []).
Proof. intros Hw Hd. unfold require_workspace. by rewrite Hw, Hd. Qed.

Lemma require_workspace_missing s :
  workspace (self s) = None ∨
  (∃ ws, workspace (self s) = Some ws ∧ is_dir (os s) ws = false) →
  require_workspace s = (Raise (FileNotFoundError "Workspace not created."), s, []).
Proof.
  unfold require_workspace. intros [Hw|(ws & Hw & Hd)]; rewrite Hw; [done|].
  by rewrite Hd.
Qed.

Lemma test_directory_guard identifier on_create block s :
  workspace (self s) = None ∨
  (∃ ws, workspace (self s) = Some ws ∧ is_dir (os s) ws = false) →
  test_directory identifier on_create block s
  = (Raise (FileNotFoundError "Workspace not created."), s, []).
Proof.
  intros H. unfold test_directory.
  apply bind_raise. by apply require_workspace_missing.
Qed.

(** C5: opening a test directory before the workspace exists raises
    [FileNotFoundError("Workspace not created.")]; the call leaves the
    object and the process as they were (so no directory is created) and
    reaches neither the callback nor the block. *)
Theorem test_directory_requires_workspace identifier on_create block s :
  workspace (self s) = None ∨
  (∃ ws, workspace (self s) = Some ws ∧ is_dir (os s) ws = false) →
  test_directory identifier on_create block s
  = (Raise (FileNotFoundError "Workspace not created."), s, []).
Proof.
  intros H. unfold test_directory. apply bind_raise. unfold require_workspace.
  destruct H as [Hw|(ws & Hw & Hd)]; rewrite Hw; [reflexivity|].
  rewrite Hd. reflexivity.
Qed.

(** ** Restoring the working directory *)

Lemma chdir_fs p w : fs (chdir p w).2 = fs w.
Proof. unfold chdir. by destruct (fs w !! resolve w p) as [[]|]. Qed.

Lemma chdir_cwd p w :
  absolute p = true → is_dir w p = true → chdir p w = (Ok tt, set_cwd (parts p) w).
Proof.
  unfold chdir, is_dir, resolve. intros ->.
  by destruct (fs w !! parts p) as [[]|].
Qed.

Lemma is_dir_absolute w w' p :
  absolute p = true → fs w' = fs w → is_dir w' p = is_dir w p.
Proof. unfold is_dir, resolve. by intros -> ->. Qed.

Lemma leave_restores s ws :
  workspace (self s) = Some ws → absolute ws = true →
  is_ok (relative_to ws (top_dir (self s))) = true →
  is_dir (os (state_of (leave s))) ws = true →
  cwd (os (state_of (leave s))) = parts ws.
Proof.
  intros Hw Ha Hr. unfold leave. msimpl. rewrite Hw.
  destruct (relative_to ws (top_dir (self s))) as [rel|]; [|done].
  destruct (chdir ws (os s)) as [r w] eqn:Ec. simpl.
  intros Hd.
  assert (is_dir (os s) ws = true) as Hd'.
  { rewrite <- Hd. symmetry. apply is_dir_absolute; [done|].
    change w with (r, w).2. rewrite <- Ec. apply chdir_fs. }
  rewrite (chdir_cwd _ _ Ha Hd') in Ec. by inversion Ec.
Qed.

(** C6: whatever happens inside an open test directory of an entered
    workspace (the block ends normally, [on_create] raises, the block
    raises, a collaborator raises), the working directory is the workspace
    directory again when [test_directory] hands control back, as long as
    that directory is still there to return to. *)
Theorem test_directory_restores_cwd identifier on_create block s ws :
  entered s ws →
  is_dir (os (state_of (test_directory identifier on_create block s))) ws = true →
  cwd (os (state_of (test_directory identifier on_create block s))) = parts ws.
Proof.
  intros (Hw & Ha & Hr & Hd). unfold test_directory.
  rewrite (bind_ok _ _ _ _ _ _ (require_workspace_ok s ws Hw Hd)).
  unfold state_of at 1 3. simpl. rewrite try_finally_state.
  pose proof (visit_layout ws identifier on_create block s) as [(_ & Ht & _) Hw'].
  apply leave_restores; [congruence|done|by rewrite Ht].
Qed.

(** ** What a computation emits *)

Definition emits {A} (φ : event → Prop) (m : M A) : Prop :=
  ∀ s, Forall φ (trace_of (m s)).

Section Emits.
Context (φ : event → Prop).

Lemma emits_ret {A} (a : A) : emits φ (mret a).
Proof. intros s. constructor. Qed.

Lemma emits_raise {A} e : emits φ (raise e : M A).
Proof. intros s. constructor. Qed.

Lemma emits_emit e : φ e → emits φ (emit e).
Proof. intros H s. by repeat constructor. Qed.

Lemma emits_of_result {A} (r : result A) : emits φ (of_result r).
Proof. intros s. constructor. Qed.

Lemma emits_reads {A} (f : St → result A) : emits φ (reads f).
Proof. intros s. constructor. Qed.

Lemma emits_get_self : emits φ get_self.
Proof. intros s. constructor. Qed.

Lemma emits_modify_self f : emits φ (modify_self f).
Proof. intros s. constructor. Qed.

Lemma emits_require_workspace : emits φ require_workspace.
Proof.
  intros s. unfold require_workspace.
  destruct (workspace (self s)); [destruct (is_dir _ _)|]; constructor.
Qed.

Lemma emits_io {A} (m : IO A) : emits φ (io m).
Proof. intros s. rewrite io_trace. constructor. Qed.

Lemma emits_bind {A B} (m : M A) (k : A → M B) :
  emits φ m → (∀ a, emits φ (k a)) → emits φ (m ≫= k).
Proof.
  intros Hm Hk s. specialize (Hm s).
  destruct (m s) as [[[a|e] s1] t1] eqn:E.
  - rewrite (bind_ok _ _ _ _ _ _ E). apply Forall_app. split; [done|apply Hk].
  - by rewrite (bind_raise _ _ _ _ _ _ E).
Qed.

Lemma emits_try_finally {A} (body : M A) fin :
  emits φ body → emits φ fin → emits φ (try_finally body fin).
Proof.
  intros Hb Hf s. rewrite try_finally_trace. apply Forall_app.
  split; [apply Hb | apply Hf].
Qed.
End Emits.

Create HintDb emits discriminated.
#[global] Hint Resolve emits_ret emits_raise emits_of_result emits_reads
  emits_get_self emits_modify_self emits_require_workspace emits_io : emits.

Ltac emits_steps :=
  repeat first
    [ match goal with |- ∀ _, _ => intro end
    | solve [eauto with emits]
    | apply emits_emit; solve [simpl; auto]
    | apply emits_bind
    | apply emits_try_finally
    | match goal with
      | |- emits _ (match ?x with _ => _ end) => destruct x
      end ].

(** Events of the collaborator only. *)
Definition quiet (e : event) : Prop :=
  match e with EvOnCreate _ | EvYield _ => False | _ => True end.

(** No [on_create], and no directory handed to a block but [d]. *)
Definition only_yields (d : path) (e : event) : Prop :=
  match e with EvOnCreate _ => False | EvYield d' => d' = d | _ => True end.

Lemma quiet_only_yields d t : Forall quiet t → Forall (only_yields d) t.
Proof. intros H. eapply Forall_impl; [exact H|]. by intros []. Qed.

Lemma collect_logs_emits (φ : event → Prop) base block :
  (∀ e, quiet e → φ e) → emits φ block → emits φ (collect_logs base block).
Proof.
  intros Hq Hb. unfold collect_logs, add_to_full_log, la_collect, la_upload_logs,
    la_upload_artifacts.
  emits_steps; apply emits_emit, Hq; exact I.
Qed.

Lemma leave_emits φ : emits φ leave.
Proof. unfold leave, logger_info_relative. emits_steps. Qed.

#[global] Hint Resolve leave_emits : emits.

Definition on_creates (t : list event) : nat :=
  length (List.filter (λ e, match e with EvOnCreate _ => true | _ => false end) t).

Lemma on_creates_app t1 t2 : on_creates (t1 ++ t2) = on_creates t1 + on_creates t2.
Proof. unfold on_creates. by rewrite List.filter_app, length_app. Qed.

Lemma only_yields_on_creates d t : Forall (only_yields d) t → on_creates t = 0.
Proof.
  induction 1 as [|e t He _ IH]; [done|].
  change (e :: t) with ([e] ++ t). rewrite on_creates_app, IH.
  by destruct e.
Qed.

Lemma only_yields_elem d d' t :
  Forall (only_yields d) t → EvYield d' ∈ t → d' = d.
Proof. intros H Hin. by apply (proj1 (Forall_forall _ _) H _ Hin). Qed.

Lemma yield_to_self b d : frames eq (yield_to b d).
Proof. unfold yield_to. frames_steps. Qed.

Lemma yield_to_emits b d : emits (only_yields d) (yield_to b d).
Proof. unfold yield_to. emits_steps. Qed.

Lemma collect_logs_yield b d s :
  self (state_of (collect_logs d (yield_to b d) s)) = self s ∧
  Forall (only_yields d) (trace_of (collect_logs d (yield_to b d) s)).
Proof.
  split.
  - symmetry. apply (collect_logs_self d _ (yield_to_self b d) s).
  - apply collect_logs_emits; [by intros []|apply yield_to_emits].
Qed.

(** A later visit: the identifier is bound to [d]. *)
Lemma visit_bound ws i f b s d :
  identifiers (self s) !! i = Some d →
  self (state_of (visit ws i f b s)) = self s ∧
  Forall (only_yields d) (trace_of (visit ws i f b s)).
Proof.
  intros Hi. unfold visit. msimpl. rewrite Hi.
  destruct (relative_to d (top_dir (self s))); [|done].
  destruct (chdir d (os s)) as [[[]|e] w1]; [|done]. simpl. rewrite Hi.
  destruct (collect_logs_yield b d (mkSt (self s) w1)) as [Hs Ht].
  destruct (collect_logs d (yield_to b d) _) as [[r s2] t2]. done.
Qed.

(** A first visit: either nothing is bound and nothing was called, or the
    identifier is bound to a new directory [d]; [on_create] is called at
    most once, before anything else, the block runs only when that call
    returned, and it only ever sees [d]. *)
Lemma visit_unbound ws i f b s :
  identifiers (self s) !! i = None →
  (self (state_of (visit ws i f b s)) = self s ∧ trace_of (visit ws i f b s) = []) ∨
  (∃ d pre rest,
      identifiers (self (state_of (visit ws i f b s)))
      = <[i := d]> (identifiers (self s)) ∧
      trace_of (visit ws i f b s) = pre ++ rest ∧
      Forall (only_yields d) rest ∧
      (pre = [] ∨ ∃ r, pre = [EvOnCreate r]) ∧
      (rest = [] ∨ pre = match f with Some _ => [EvOnCreate (Ok tt)] | None => [] end)).
Proof.
  intros Hi. unfold visit. msimpl. rewrite Hi.
  destruct (mkdtemp ws (os s)) as [[d|e] w1]; [|by left]. simpl.
  destruct (relative_to d (top_dir (self s))); [|by left]. simpl.
  right. exists d.
  destruct (chdir d w1) as [[[]|e] w2]; simpl;
    [|exists [], []; repeat split; auto].
  destruct f as [f|]; simpl.
  - unfold call_on_create. simpl.
    destruct (f w2) as [[[]|e] w3]; simpl;
      [|exists [EvOnCreate (Raise e)], []; repeat split; eauto].
    rewrite lookup_insert_eq.
    match goal with |- context [collect_logs d (yield_to b d) ?s'] =>
      destruct (collect_logs_yield b d s') as [Hs Ht];
      destruct (collect_logs d (yield_to b d) s') as [[r s2] t2] end.
    unfold state_of, trace_of in *. simpl in *.
    exists [EvOnCreate (Ok tt)], t2. rewrite Hs. repeat split; eauto.
  - rewrite lookup_insert_eq.
    match goal with |- context [collect_logs d (yield_to b d) ?s'] =>
      destruct (collect_logs_yield b d s') as [Hs Ht];
      destruct (collect_logs d (yield_to b d) s') as [[r s2] t2] end.
    unfold state_of, trace_of in *. simpl in *.
    exists [], t2. rewrite Hs. repeat split; auto.
Qed.

Lemma emits_nothing {A} (m : M A) s : emits (λ _, False) m → trace_of (m s) = [].
Proof.
  intros H. specialize (H s). destruct (trace_of (m s)) as [|e t]; [done|].
  by inversion H.
Qed.

(** [test_directory] is its guard, then [visit] as far as the object and
    the calls are concerned. *)
Lemma test_directory_cases i f b s :
  test_directory i f b s
  = (Raise (FileNotFoundError "Workspace not created."), s, []) ∨
  (∃ ws, workspace (self s) = Some ws ∧ is_dir (os s) ws = true ∧
     self (state_of (test_directory i f b s)) = self (state_of (visit ws i f b s)) ∧
     trace_of (test_directory i f b s) = trace_of (visit ws i f b s)).
Proof.
  destruct (workspace (self s)) as [ws|] eqn:Hw;
    [destruct (is_dir (os s) ws) eqn:Hd|].
  - right. exists ws. split; [done|]. split; [done|]. unfold test_directory.
    rewrite (bind_ok _ _ _ _ _ _ (require_workspace_ok s ws Hw Hd)).
    unfold state_of at 1, trace_of at 1. simpl.
    rewrite try_finally_state, try_finally_trace.
    rewrite <- (leave_self (state_of (visit ws i f b s))).
    by rewrite (emits_nothing leave _ (leave_emits _)), app_nil_r.
  - left. apply test_directory_guard. right. by exists ws.
  - left. apply test_directory_guard. by left.
Qed.

Lemma test_directory_bound i f b s d :
  identifiers (self s) !! i = Some d →
  self (state_of (test_directory i f b s)) = self s ∧
  Forall (only_yields d) (trace_of (test_directory i f b s)).
Proof.
  intros Hi. destruct (test_directory_cases i f b s) as [->|(ws & _ & _ & -> & ->)].
  - split; [done|constructor].
  - by apply visit_bound.
Qed.

Lemma test_directory_unbound i f b s :
  identifiers (self s) !! i = None →
  (self (state_of (test_directory i f b s)) = self s ∧
   trace_of (test_directory i f b s) = []) ∨
  (∃ d pre rest,
      identifiers (self (state_of (test_directory i f b s)))
      = <[i := d]> (identifiers (self s)) ∧
      trace_of (test_directory i f b s) = pre ++ rest ∧
      Forall (only_yields d) rest ∧
      (pre = [] ∨ ∃ r, pre = [EvOnCreate r]) ∧
      (rest = [] ∨ pre = match f with Some _ => [EvOnCreate (Ok tt)] | None => [] end)).
Proof.
  intros Hi. destruct (test_directory_cases i f b s) as [->|(ws & _ & _ & -> & ->)].
  - left. by split.
  - by apply visit_unbound.
Qed.

(** ** Bindings are for life *)

Definition bindings_kept (o o' : Workspace) : Prop :=
  ∀ i d, identifiers o !! i = Some d → identifiers o' !! i = Some d.

#[global] Instance bindings_kept_preorder : PreOrder bindings_kept.
Proof.
  split; [by intros o i d H|]. intros o1 o2 o3 H1 H2 i d H. by apply H2, H1.
Qed.

Definition same_bindings (o o' : Workspace) : Prop :=
  identifiers o' = identifiers o.

#[global] Instance same_bindings_preorder : PreOrder same_bindings.
Proof.
  split; [by intros o; unfold same_bindings|].
  intros o1 o2 o3. unfold same_bindings. congruence.
Qed.

Lemma test_directory_keeps i f b : frames bindings_kept (test_directory i f b).
Proof.
  intros s j d Hj. destruct (identifiers (self s) !! i) as [d'|] eqn:Hi.
  - destruct (test_directory_bound i f b s d' Hi) as [-> _]. done.
  - destruct (test_directory_unbound i f b s Hi) as [[-> _]|(d' & ? & ? & -> & _)];
      [done|].
    rewrite lookup_insert_ne; [done|]. intros ->. congruence.
Qed.

(** Membership in a short trace, one candidate at a time. *)
Ltac trace_inv :=
  repeat match goal with
    | H : _ ∈ _ :: _ |- _ =>
        apply elem_of_cons in H; destruct H as [H|H];
        [try discriminate H; try (injection H; clear H; intros; subst)|]
    | H : _ ∈ [] |- _ => by apply elem_of_nil in H
    end.

Section Runs.

Variable gztar : list (list string * node) → string.

Lemma enter_frames (R : relation Workspace) `{!PreOrder R} p :
  (∀ o q, R o (set_workspace q o)) → frames R (enter p).
Proof.
  intros H. unfold enter, logger_info_relative. frames_steps.
  all: apply frames_modify_self; intros o; apply H.
Qed.

Lemma compress_frames (R : relation Workspace) `{!PreOrder R} :
  (∀ o q, R o (set_compressed_workspace q o)) → frames R (compress gztar).
Proof.
  intros H. unfold compress. frames_steps.
  apply frames_modify_self; intros o; apply H.
Qed.

Lemma exit_frames (R : relation Workspace) `{!PreOrder R} :
  (∀ o q, R o (set_compressed_workspace q o)) → frames R (exit_ gztar).
Proof.
  intros H. pose proof (compress_frames R H) as Hc.
  unfold exit_, la_collect, la_upload_logs, la_upload_artifacts. frames_steps.
Qed.

(** What no method ever changes: the fields set in [__init__] and the
    bindings already made. *)
Definition stable (o o' : Workspace) : Prop := layout o o' ∧ bindings_kept o o'.

#[global] Instance stable_preorder : PreOrder stable.
Proof.
  split; [by intros o|]. intros o1 o2 o3 [? ?] [? ?]. split; by etrans.
Qed.

Lemma stable_set_workspace o q : stable o (set_workspace q o).
Proof. split; [by repeat split|by intros i d]. Qed.

Lemma stable_set_compressed_workspace o q : stable o (set_compressed_workspace q o).
Proof. split; [by repeat split|by intros i d]. Qed.

Lemma run_method_stable c : frames stable (run_method gztar c).
Proof.
  destruct c as [p| |i f b| |r|f]; simpl.
  - apply enter_frames; [apply _|]. apply stable_set_workspace.
  - apply exit_frames; [apply _|]. apply stable_set_compressed_workspace.
  - intros s. split; [apply test_directory_layout|apply test_directory_keeps].
  - apply compress_frames; [apply _|]. apply stable_set_compressed_workspace.
  - apply frames_eq_weaken; [apply _|]. apply add_to_full_log_self.
  - apply frames_io. apply _.
Qed.

Lemma run_stable cs s : stable (self s) (self (run gztar cs s).1).
Proof.
  revert s. induction cs as [|c cs IH]; intros s; simpl; [reflexivity|].
  pose proof (run_method_stable c s) as Hc. unfold state_of in Hc.
  destruct (run_method gztar c s) as [[r s1] t1]. simpl in Hc.
  specialize (IH s1). destruct (run gztar cs s1) as [s2 t2]. simpl in *.
  by etrans.
Qed.

Lemma run_keeps_binding cs s i d :
  identifiers (self s) !! i = Some d →
  identifiers (self (run gztar cs s).1) !! i = Some d.
Proof. intros H. by apply (run_stable cs s). Qed.

Lemma elem_of_on_create_inv r pre rest d :
  Forall (only_yields d) rest → (pre = [] ∨ ∃ r', pre = [EvOnCreate r']) →
  EvOnCreate r ∈ pre ++ rest → pre = [EvOnCreate r].
Proof.
  intros Hrest Hpre [Hin|Hin]%elem_of_app.
  - destruct Hpre as [->|[r' ->]]; [by apply elem_of_nil in Hin|].
    apply list_elem_of_singleton in Hin. congruence.
  - by apply (proj1 (Forall_forall _ _) Hrest) in Hin.
Qed.

Lemma elem_of_yield_inv d' pre rest d :
  Forall (only_yields d) rest → (pre = [] ∨ ∃ r', pre = [EvOnCreate r']) →
  EvYield d' ∈ pre ++ rest → d' = d ∧ rest ≠ [].
Proof.
  intros Hrest Hpre [Hin|Hin]%elem_of_app.
  - destruct Hpre as [->|[r' ->]]; [by apply elem_of_nil in Hin|].
    by apply list_elem_of_singleton in Hin.
  - split; [by apply (only_yields_elem d d' rest)|]. intros ->.
    by apply elem_of_nil in Hin.
Qed.

(** C3: take an identifier that is not bound yet and open its test
    directory twice, with anything the caller may do in between.  When
    both calls hand a directory to their block, it is the same directory;
    [on_create] runs once, in the first call, and never in the second; and
    the identifier stays bound to that directory through every later
    method call on the object. *)
Theorem test_directory_twice s i f1 f2 b1 b2 between d1 d2 :
  identifiers (self s) !! i = None →
  EvYield d1 ∈ trace_of (test_directory i (Some f1) b1 s) →
  EvYield d2 ∈ trace_of
    (test_directory i (Some f2) b2
       (run gztar between (state_of (test_directory i (Some f1) b1 s))).1) →
  d1 = d2 ∧
  on_creates (trace_of (test_directory i (Some f1) b1 s)) = 1 ∧
  on_creates (trace_of
    (test_directory i (Some f2) b2
       (run gztar between (state_of (test_directory i (Some f1) b1 s))).1)) = 0 ∧
  ∀ later,
    identifiers (self (run gztar later (state_of (test_directory i (Some f1) b1 s))).1) !! i
    = Some d1.
Proof.
  intros Hi Hy1 Hy2.
  destruct (test_directory_unbound i (Some f1) b1 s Hi)
    as [[_ Ht]|(d & pre & rest & Hid & Ht & Hrest & Hpre & Hfull)].
  { rewrite Ht in Hy1. by apply elem_of_nil in Hy1. }
  rewrite Ht in Hy1.
  destruct (elem_of_yield_inv _ _ _ _ Hrest Hpre Hy1) as [-> Hne].
  destruct Hfull as [-> | ->]; [done|].
  assert (∀ later, identifiers
    (self (run gztar later (state_of (test_directory i (Some f1) b1 s))).1) !! i
    = Some d) as Hlater.
  { intros later. apply run_keeps_binding. rewrite Hid. apply lookup_insert_eq. }
  destruct (test_directory_bound i (Some f2) b2 _ d (Hlater between)) as [_ Hsnd].
  split; [symmetry; by apply (only_yields_elem d d2 _ Hsnd)|].
  split; [|split; [by apply (only_yields_on_creates d)|done]].
  rewrite Ht, on_creates_app, (only_yields_on_creates d rest Hrest). done.
Qed.

(** ** Compression and the working directory *)

Lemma is_prefix_spec xs ys : is_prefix xs ys = true ↔ ∃ k, ys = xs ++ k.
Proof.
  revert ys. induction xs as [|x xs IH]; intros ys; simpl.
  - split; [by exists ys|done].
  - destruct ys as [|y ys].
    + split; [done|]. by intros [k Hk].
    + rewrite andb_true_iff, bool_decide_eq_true, IH. split.
      * intros [-> [k ->]]. by exists k.
      * intros [k [= -> ->]]. split; [done|by exists k].
Qed.


Lemma is_prefix_app xs k : is_prefix xs (xs ++ k) = true.
Proof. apply is_prefix_spec. by exists k. Qed.



Lemma relative_to_ok p base q :
  relative_to p base = Ok q →
  absolute p = absolute base ∧ is_prefix (parts base) (parts p) = true.
Proof.
  unfold relative_to.
  destruct (bool_decide (absolute p = absolute base)) eqn:Ha; simpl; [|done].
  destruct (is_prefix (parts base) (parts p)); [|done].
  by apply bool_decide_eq_true in Ha.
Qed.





Lemma tar_members_spec w base arch k n :
  (k, n) ∈ tar_members w base arch ↔
  ∃ suffix, k = parts base ++ suffix ∧
            fs w !! (resolve w base ++ suffix) = Some n ∧
            resolve w base ++ suffix ≠ arch.
Proof.
  unfold tar_members. rewrite list_elem_of_omap. split.
  - intros ([k' n'] & Hin & Hf). apply elem_of_map_to_list in Hin. simpl in Hf.
    destruct (is_prefix (resolve w base) k') eqn:Hp; [|done].
    destruct (bool_decide (k' = arch)) eqn:Hb; [done|]. simpl in Hf.
    apply bool_decide_eq_false in Hb. apply is_prefix_spec in Hp as [suffix ->].
    rewrite drop_app_length in Hf. injection Hf as <- <-. by exists suffix.
  - intros (suffix & -> & Hl & Hne). exists (resolve w base ++ suffix, n).
    split; [by apply elem_of_map_to_list|]. simpl.
    rewrite is_prefix_app, drop_app_length.
    by rewrite (bool_decide_eq_false_2 _ Hne).
Qed.

Lemma make_tarball_ok dir nm base w :
  fs w !! dir = Some Dir →
  fs w !! (dir ++ [nm +:+ ".tar.gz"]) ≠ Some Dir →
  exists_ w base = true →
  resolve w base ≠ dir ++ [nm +:+ ".tar.gz"] →
  make_tarball gztar (dir ++ [nm]) base w
  = (Ok (Path true (dir ++ [nm +:+ ".tar.gz"])),
     set_fs (<[dir ++ [nm +:+ ".tar.gz"] :=
                File (gztar (tar_members
                  (set_fs (<[dir ++ [nm +:+ ".tar.gz"] := File (gztar [])]> (fs w)) w)
                  base (dir ++ [nm +:+ ".tar.gz"])))]> (fs w)) w).
Proof.
  intros Hdir Harch Hbase Hne.
  unfold make_tarball, add_suffix, parent. rewrite removelast_last, last_last.
  unfold mbind, IO_bind, ensure_dir. rewrite removelast_last, Hdir.
  set (arch := dir ++ [nm +:+ ".tar.gz"]) in *.
  assert (∃ w1, write_file arch (gztar []) w = (Ok tt, w1) ∧
                w1 = set_fs (<[arch := File (gztar [])]> (fs w)) w) as (w1 & -> & Hw1).
  { unfold write_file, create, parent. unfold arch. rewrite removelast_last, Hdir.
    fold arch. destruct (fs w !! arch) as [[]|]; [done|eauto..]. }
  unfold tar_add, lstat, mbind, IO_bind.
  assert (exists_ w1 base = true) as ->.
  { rewrite Hw1. unfold exists_, resolve in *. simpl.
    rewrite lookup_insert_ne; [done|]. by destruct (absolute base). }
  unfold write_members, write_file. rewrite Hw1 at 1. simpl.
  rewrite lookup_insert_eq. unfold mret, IO_ret. rewrite Hw1 at 1 2. simpl.
  rewrite insert_insert_eq. by rewrite Hw1.
Qed.

Lemma make_archive_ok nm base w :
  fs w !! cwd w = Some Dir →
  fs w !! (cwd w ++ [nm +:+ ".tar.gz"]) ≠ Some Dir →
  absolute base = false →
  exists_ w base = true →
  cwd w ++ parts base ≠ cwd w ++ [nm +:+ ".tar.gz"] →
  make_archive gztar (Path false [nm]) (Path false []) base w
  = (Ok (Path true (cwd w ++ [nm +:+ ".tar.gz"])),
     set_fs (<[cwd w ++ [nm +:+ ".tar.gz"] :=
                File (gztar (tar_members
                  (set_fs (<[cwd w ++ [nm +:+ ".tar.gz"] := File (gztar [])]> (fs w)) w)
                  base (cwd w ++ [nm +:+ ".tar.gz"])))]> (fs w)) w).
Proof.
  intros Hcwd Harch Hrel Hbase Hne.
  unfold make_archive, getcwd, abspath, mbind, IO_bind, chdir, resolve. simpl.
  rewrite app_nil_r, Hcwd.
  assert (set_cwd (cwd w) w = w) as -> by by destruct w.
  unfold io_finally. rewrite make_tarball_ok; try done.
  - unfold chdir, resolve. simpl. rewrite lookup_insert_ne, Hcwd.
    + by destruct w.
    + intros H. apply (f_equal length) in H. rewrite length_app in H. simpl in H. lia.
  - unfold resolve. by rewrite Hrel.
Qed.


Lemma relative_to_below a xs k :
  relative_to (Path a (xs ++ k)) (Path a xs) = Ok (Path false k).
Proof.
  unfold relative_to. simpl.
  by rewrite bool_decide_eq_true_2, is_prefix_app, drop_app_length.
Qed.

Lemma relative_to_self a xs : relative_to (Path a xs) (Path a xs) = Ok (Path false []).
Proof. rewrite <- (app_nil_r xs) at 1. apply relative_to_below. Qed.

(** C8 (as amended): with the process standing in [top_dir] and the
    workspace in its usual place [top_dir/workspace], [compress] writes one
    file, [top_dir/workspace.tar.gz], named after the workspace directory;
    its members are exactly the entries at or below the workspace
    directory, each named by its path relative to [top_dir], that is,
    starting with the name of the workspace directory; and the path of the
    archive is recorded in [compressed_workspace]. *)
Theorem compress_archives_workspace s :
  let top := top_dir (self s) in
  let ws := joinpath top "workspace" in
  let archive := joinpath top (name ws +:+ ".tar.gz") in
  absolute top = true →
  workspace (self s) = Some ws →
  is_dir (os s) ws = true →
  cwd (os s) = parts top →
  is_dir (os s) top = true →
  fs (os s) !! parts archive ≠ Some Dir →
  ∃ members,
    compress gztar s
    = (Ok tt,
       mkSt (set_compressed_workspace (Some archive) (self s))
            (set_fs (<[parts archive := File (gztar members)]> (fs (os s))) (os s)),
       []) ∧
    ∀ k n, (k, n) ∈ members ↔
           ∃ below, k = name ws :: below ∧
                    fs (os s) !! (parts ws ++ below) = Some n.
Proof.
  destruct s as [o w]. simpl. destruct (top_dir o) as [a top] eqn:Htop. simpl.
  intros -> Hws Hwsd Hcwd Htopd Harch.
  assert (name (joinpath (Path true top) "workspace") = "workspace") as Hname
    by (unfold name; simpl; apply last_last).
  rewrite Hname in *. unfold joinpath in *. simpl in *.
  unfold is_dir, resolve in Hwsd, Htopd. simpl in *.
  eexists. split.
  - unfold compress, require_workspace. msimpl. rewrite Hws.
    unfold is_dir, resolve. simpl. rewrite Hwsd. simpl.
    rewrite Htop, Hcwd. unfold joinpath. simpl.
    rewrite relative_to_below, relative_to_self. simpl.
    rewrite <- Hcwd in *.
    rewrite (make_archive_ok "workspace" (Path false ["workspace"]) w); simpl.
    + reflexivity.
    + by destruct (fs w !! cwd w) as [[]|].
    + done.
    + done.
    + unfold exists_, resolve. simpl. by destruct (fs w !! (cwd w ++ ["workspace"])).
    + intros H. by apply app_inv_head in H.
  - intros k n. rewrite tar_members_spec. unfold resolve. simpl. rewrite Hcwd.
    split.
    + intros (below & -> & Hl & Hne). exists below. split; [done|].
      by rewrite lookup_insert_ne in Hl.
    + intros (below & -> & Hl). exists below.
      assert ((top ++ ["workspace"]) ++ below ≠ top ++ ["workspace.tar.gz"]) as Hne.
      { rewrite <- app_assoc. intros H. by apply app_inv_head in H. }
      split; [done|]. split; [|done]. by rewrite lookup_insert_ne.
Qed.

(** ** Teardown *)

(** The collaborator calls of [__exit__], once the archive is written. *)
Definition exit_uploads (o : Workspace) : M unit :=
  logs ← la_collect (global_logs o);
  la_upload_logs logs;;
  artifacts ← la_collect (global_artifacts o);
  la_upload_artifacts artifacts;;
  o' ← get_self;
  match compressed_workspace o' with
  | Some cw => la_upload_artifacts [Descriptor (name cw) cw]
  | None => raise AttributeError
  end.

Lemma exit_unfold :
  exit_ gztar
  = (o ← get_self; io (chdir (top_dir o));; compress gztar;; exit_uploads o).
Proof. reflexivity. Qed.

(** The same calls, read off the answers of the collaborator: each call is
    made only when every call before it returned. *)
Definition uploads_outcome (la : LogArea) (logs_dir artifacts_dir : path)
    (archive : option path) (w : World) : result unit * list event :=
  match collect la logs_dir w with
  | Raise e => (Raise e, [EvCollect logs_dir])
  | Ok logs =>
    match upload_logs la logs w with
    | Raise e => (Raise e, [EvCollect logs_dir; EvUploadLogs logs])
    | Ok _ =>
      match collect la artifacts_dir w with
      | Raise e =>
          (Raise e, [EvCollect logs_dir; EvUploadLogs logs; EvCollect artifacts_dir])
      | Ok artifacts =>
        match upload_artifacts la artifacts w with
        | Raise e =>
            (Raise e, [EvCollect logs_dir; EvUploadLogs logs;
                       EvCollect artifacts_dir; EvUploadArtifacts artifacts])
        | Ok _ =>
          match archive with
          | None =>
              (Raise AttributeError,
               [EvCollect logs_dir; EvUploadLogs logs;
                EvCollect artifacts_dir; EvUploadArtifacts artifacts])
          | Some cw =>
              (upload_artifacts la [Descriptor (name cw) cw] w,
               [EvCollect logs_dir; EvUploadLogs logs;
                EvCollect artifacts_dir; EvUploadArtifacts artifacts;
                EvUploadArtifacts [Descriptor (name cw) cw]])
          end
        end
      end
    end
  end.

Lemma exit_uploads_run o s :
  exit_uploads o s
  = ((uploads_outcome (log_area (self s)) (global_logs o) (global_artifacts o)
        (compressed_workspace (self s)) (os s)).1,
     s,
     (uploads_outcome (log_area (self s)) (global_logs o) (global_artifacts o)
        (compressed_workspace (self s)) (os s)).2).
Proof.
  unfold exit_uploads, uploads_outcome, la_collect, la_upload_logs,
    la_upload_artifacts. msimpl.
  destruct (collect _ (global_logs o) _) as [logs|]; [|done]. simpl.
  destruct (upload_logs _ logs _) as [[]|]; [|done]. simpl.
  destruct (collect _ (global_artifacts o) _) as [artifacts|]; [|done]. simpl.
  destruct (upload_artifacts _ artifacts _) as [[]|]; [|done]. simpl.
  destruct (compressed_workspace (self s)) as [cw|]; [|done]. simpl.
  by destruct (upload_artifacts _ _ _).
Qed.

Lemma compress_emits φ : emits φ (compress gztar).
Proof. unfold compress. emits_steps. Qed.

(** Directories stay, and so does the working directory. *)
Definition dirs_kept (w w' : World) : Prop :=
  cwd w' = cwd w ∧ ∀ k, fs w !! k = Some Dir → fs w' !! k = Some Dir.

#[local] Instance dirs_kept_preorder : PreOrder dirs_kept.
Proof.
  split; [by intros w|]. intros w1 w2 w3 [? H1] [? H2].
  split; [congruence|]. intros k Hk. by apply H2, H1.
Qed.

Definition io_frames {A} (R : relation World) (m : IO A) : Prop :=
  ∀ w, R w (m w).2.

Lemma io_frames_bind {A B} (R : relation World) `{!PreOrder R}
    (m : IO A) (k : A → IO B) :
  io_frames R m → (∀ a, io_frames R (k a)) → io_frames R (m ≫= k).
Proof.
  intros Hm Hk w. specialize (Hm w). unfold mbind, IO_bind.
  destruct (m w) as [[a|e] w1]; [|done]. etrans; [exact Hm|apply Hk].
Qed.

Lemma create_kept k n w : fs w !! k = None → dirs_kept w (create k n w).2.
Proof.
  intros Hk. unfold create.
  destruct (fs w !! parent k) as [[]|]; simpl; [|reflexivity..].
  split; [done|]. intros k' Hk'. simpl.
  rewrite lookup_insert_ne; [done|]. intros ->. congruence.
Qed.

Lemma write_file_kept k data : io_frames dirs_kept (write_file k data).
Proof.
  intros w. unfold write_file. destruct (fs w !! k) as [[]|] eqn:Hk.
  - reflexivity.
  - split; [done|]. intros k' Hk'. simpl.
    rewrite lookup_insert_ne; [done|]. intros ->. congruence.
  - by apply create_kept.
Qed.

Lemma makedirs_from_kept seen rest : io_frames dirs_kept (makedirs_from seen rest).
Proof.
  revert seen. induction rest as [|x rest IH]; intros seen w; simpl; [reflexivity|].
  destruct (fs w !! (seen ++ [x])) as [[]|] eqn:Hk; [apply IH|reflexivity|].
  unfold mbind, IO_bind. pose proof (create_kept (seen ++ [x]) Dir w Hk) as Hc.
  destruct (create (seen ++ [x]) Dir w) as [[[]|e] w1]; [|done].
  etrans; [exact Hc|apply IH].
Qed.

Lemma ensure_dir_kept k : io_frames dirs_kept (ensure_dir k).
Proof.
  intros w. unfold ensure_dir. destruct (fs w !! k); [reflexivity|].
  apply makedirs_from_kept.
Qed.

Lemma make_tarball_kept bn bd : io_frames dirs_kept (make_tarball gztar bn bd).
Proof.
  unfold make_tarball, tar_add.
  repeat (apply io_frames_bind; [apply _| |intros ?]).
  - apply ensure_dir_kept.
  - apply write_file_kept.
  - intros w. unfold lstat. destruct (exists_ w bd); reflexivity.
  - intros w. apply write_file_kept.
  - intros w. reflexivity.
Qed.

Lemma make_archive_kept bn rd bd w :
  fs w !! cwd w = Some Dir → dirs_kept w (make_archive gztar bn rd bd w).2.
Proof.
  intros Hcwd. unfold make_archive, getcwd, abspath, mbind, IO_bind.
  destruct (chdir rd w) as [[[]|e] w1] eqn:Hc.
  - assert (fs w1 = fs w) as Hfs by (change w1 with (Ok (), w1).2; rewrite <- Hc; apply chdir_fs).
    unfold io_finally.
    pose proof (make_tarball_kept (resolve w bn) bd w1) as [_ Hk].
    destruct (make_tarball gztar (resolve w bn) bd w1) as [r w2]. simpl in Hk.
    assert (fs w2 !! cwd w = Some Dir) as Hd by (apply Hk; by rewrite Hfs).
    unfold chdir, resolve. simpl. rewrite Hd. simpl.
    split; [done|]. intros k Hkd. simpl. apply Hk. by rewrite Hfs.
  - assert (w1 = w) as ->; [|reflexivity].
    unfold chdir in Hc. by destruct (fs w !! resolve w rd) as [[]|]; inversion Hc.
Qed.

Lemma compress_kept s :
  fs (os s) !! cwd (os s) = Some Dir →
  dirs_kept (os s) (os (state_of (compress gztar s))).
Proof.
  intros Hcwd. unfold compress, require_workspace. msimpl.
  destruct (workspace (self s)) as [ws|]; [|reflexivity].
  destruct (is_dir (os s) ws); [|reflexivity]. simpl.
  destruct (relative_to _ _) as [q1|]; [|reflexivity]. simpl.
  destruct (relative_to _ _) as [q2|]; [|reflexivity]. simpl.
  destruct (relative_to _ _) as [q3|]; [|reflexivity]. simpl.
  pose proof (make_archive_kept q1 q2 q3 (os s) Hcwd) as Hk.
  destruct (make_archive gztar q1 q2 q3 (os s)) as [[a|e] w1]; simpl; exact Hk.
Qed.

Lemma chdir_cases p w :
  (is_dir w p = true ∧ chdir p w = (Ok tt, set_cwd (resolve w p) w)) ∨
  (is_dir w p = false ∧ ∃ e, chdir p w = (Raise e, w)).
Proof.
  unfold chdir, is_dir. destruct (fs w !! resolve w p) as [[]|]; eauto.
Qed.

(** [__exit__], step by step: either it stops before any collaborator call,
    or the process stands in [top_dir] and the calls are those of
    [uploads_outcome]. *)
Lemma exit_cases s :
  (∃ e, result_of (exit_ gztar s) = Raise e ∧ trace_of (exit_ gztar s) = []) ∨
  (result_of (exit_ gztar s)
   = (uploads_outcome (log_area (self s)) (global_logs (self s))
        (global_artifacts (self s))
        (compressed_workspace (self (state_of (exit_ gztar s))))
        (os (state_of (exit_ gztar s)))).1 ∧
   trace_of (exit_ gztar s)
   = (uploads_outcome (log_area (self s)) (global_logs (self s))
        (global_artifacts (self s))
        (compressed_workspace (self (state_of (exit_ gztar s))))
        (os (state_of (exit_ gztar s)))).2).
Proof.
  rewrite exit_unfold. msimpl.
  destruct (chdir_cases (top_dir (self s)) (os s)) as [[_ ->]|[_ [e ->]]];
    [|left; by exists e]. simpl.
  set (s1 := mkSt (self s) (set_cwd _ _)).
  pose proof (emits_nothing (compress gztar) s1 (compress_emits _)) as Ht.
  pose proof (compress_frames layout (λ o q, ltac:(by repeat split)) s1)
    as (Hla & _ & Hgl & Hga).
  unfold trace_of, state_of in *.
  destruct (compress gztar s1) as [[[[]|e] sc] tc]; simpl in *; subst tc;
    [|left; by exists e].
  right. rewrite exit_uploads_run. simpl. by rewrite Hla.
Qed.

(** Where [__exit__] leaves the process. *)
Lemma exit_cwd s :
  is_dir (os s) (top_dir (self s)) = true →
  cwd (os (state_of (exit_ gztar s))) = resolve (os s) (top_dir (self s)).
Proof.
  intros Hd. rewrite exit_unfold. msimpl.
  destruct (chdir_cases (top_dir (self s)) (os s)) as [[_ ->]|[Hn _]];
    [|congruence]. simpl.
  set (s1 := mkSt (self s) (set_cwd _ _)).
  assert (fs (os s1) !! cwd (os s1) = Some Dir) as Hcwd.
  { simpl. unfold is_dir in Hd. by destruct (fs (os s) !! _) as [[]|]. }
  pose proof (compress_kept s1 Hcwd) as [Hk _].
  unfold state_of in *.
  destruct (compress gztar s1) as [[[[]|e] sc] tc]; simpl in *; [|done].
  rewrite exit_uploads_run. simpl. done.
Qed.

Lemma exit_ok_top_dir s :
  result_of (exit_ gztar s) = Ok tt → is_dir (os s) (top_dir (self s)) = true.
Proof.
  rewrite exit_unfold. msimpl.
  by destruct (chdir_cases (top_dir (self s)) (os s)) as [[-> _]|[_ [e ->]]].
Qed.

(** C1 (as amended): the three upload steps of [__exit__] (global logs,
    global artifacts, the archive) run in that order and each is attempted
    only when everything before it went through.  When [__exit__] returns,
    all three were attempted.  When the upload of the global logs fails,
    its exception leaves [__exit__] and neither upload of artifacts is
    attempted; when the upload of the global artifacts fails, the archive
    is not uploaded. *)
Theorem exit_uploads_in_sequence s :
  (result_of (exit_ gztar s) = Ok tt →
   ∃ logs artifacts cw,
     compressed_workspace (self (state_of (exit_ gztar s))) = Some cw ∧
     trace_of (exit_ gztar s)
     = [EvCollect (global_logs (self s)); EvUploadLogs logs;
        EvCollect (global_artifacts (self s)); EvUploadArtifacts artifacts;
        EvUploadArtifacts [Descriptor (name cw) cw]]) ∧
  (∀ logs e,
     EvUploadLogs logs ∈ trace_of (exit_ gztar s) →
     upload_logs (log_area (self s)) logs (os (state_of (exit_ gztar s))) = Raise e →
     result_of (exit_ gztar s) = Raise e ∧
     trace_of (exit_ gztar s)
     = [EvCollect (global_logs (self s)); EvUploadLogs logs]) ∧
  (∀ artifacts e,
     EvUploadArtifacts artifacts ∈ trace_of (exit_ gztar s) →
     collect (log_area (self s)) (global_artifacts (self s))
       (os (state_of (exit_ gztar s))) = Ok artifacts →
     upload_artifacts (log_area (self s)) artifacts (os (state_of (exit_ gztar s)))
     = Raise e →
     result_of (exit_ gztar s) = Raise e ∧
     ∃ logs,
       trace_of (exit_ gztar s)
       = [EvCollect (global_logs (self s)); EvUploadLogs logs;
          EvCollect (global_artifacts (self s)); EvUploadArtifacts artifacts]).
Proof.
  destruct (exit_cases s) as [(e0 & Hr & Ht)|[Hr Ht]].
  { rewrite Hr, Ht. split; [done|]. split; intros ?? Hin; by apply elem_of_nil in Hin. }
  rewrite Hr, Ht. clear Hr Ht. unfold uploads_outcome.
  set (la := log_area (self s)). set (w := os (state_of (exit_ gztar s))).
  destruct (collect la (global_logs (self s)) w) as [logs|e1] eqn:E1; simpl;
  [destruct (upload_logs la logs w) as [[]|e2] eqn:E2; simpl;
   [destruct (collect la (global_artifacts (self s)) w) as [artifacts|e3] eqn:E3; simpl;
    [destruct (upload_artifacts la artifacts w) as [[]|e4] eqn:E4; simpl;
     [destruct (compressed_workspace _) as [cw|] eqn:Ecw; simpl|]|]|]|].
  all: split; [|split]; intros; trace_inv.
  all: try congruence.
  all: try (split; [congruence|by eauto]).
  by exists logs, artifacts, cw.
Qed.

Lemma init_top_dir la w : top_dir (self (init la w)) = Path true (cwd w).
Proof. reflexivity. Qed.

(** C4 (as amended): [__exit__] takes the process back to [top_dir], the
    directory in which the object was constructed, whatever the caller did
    before [__enter__] and whatever happened inside the workspace.  That is
    the directory the process stood in just before [__enter__] only when
    the caller did not move in between. *)
Theorem exit_returns_to_construction_cwd la w0 before p inside :
  result_of (exit_ gztar (run gztar (before ++ Enter p :: inside) (init la w0)).1)
  = Ok tt →
  cwd (os (state_of
    (exit_ gztar (run gztar (before ++ Enter p :: inside) (init la w0)).1)))
  = cwd w0 ∧
  (cwd (os (run gztar before (init la w0)).1) = cwd w0 →
   cwd (os (state_of
     (exit_ gztar (run gztar (before ++ Enter p :: inside) (init la w0)).1)))
   = cwd (os (run gztar before (init la w0)).1)).
Proof.
  intros Hok. apply exit_ok_top_dir in Hok. rewrite (exit_cwd _ Hok).
  destruct (run_stable (before ++ Enter p :: inside) (init la w0)) as [(_ & -> & _) _].
  rewrite init_top_dir. split; [done|]. by intros ->.
Qed.

(** ** The cumulative log *)

Lemma add_to_full_log_missing report s :
  exists_ (os s) report = false → add_to_full_log report s = (Ok tt, s, []).
Proof. intros H. unfold add_to_full_log. msimpl. by rewrite H. Qed.

(** The report is there and so is the cumulative log: the text of the
    report goes to its end. *)
Lemma add_to_full_log_appends report s data text old :
  fs (os s) !! resolve (os s) report = Some (File data) →
  decode_text data = Ok text →
  fs (os s) !! resolve (os s) (joinpath (global_logs (self s)) "full_execution.log")
  = Some (File old) →
  add_to_full_log report s
  = (Ok tt,
     mkSt (self s)
       (set_fs (<[resolve (os s) (joinpath (global_logs (self s)) "full_execution.log")
                  := File (old +:+ text)]> (fs (os s))) (os s)),
     []).
Proof.
  intros Hr Ht Hf. unfold add_to_full_log. msimpl. unfold exists_. rewrite Hr.
  unfold touch. rewrite Hf. cbn [os self].
  unfold open_append. rewrite Hf. cbn [os self].
  unfold read_text. rewrite Hr, Ht. cbn [os self].
  unfold write_append. by rewrite Hf.
Qed.

(** The report is there and the cumulative log is not yet: it is created
    with the text of the report. *)
Lemma add_to_full_log_creates report s data text :
  fs (os s) !! resolve (os s) report = Some (File data) →
  decode_text data = Ok text →
  fs (os s) !! resolve (os s) (joinpath (global_logs (self s)) "full_execution.log")
  = None →
  is_dir (os s) (global_logs (self s)) = true →
  add_to_full_log report s
  = (Ok tt,
     mkSt (self s)
       (set_fs (<[resolve (os s) (joinpath (global_logs (self s)) "full_execution.log")
                  := File text]> (fs (os s))) (os s)),
     []).
Proof.
  intros Hr Ht Hf Hd. unfold add_to_full_log. msimpl. unfold exists_. rewrite Hr.
  set (full := resolve (os s) (joinpath (global_logs (self s)) "full_execution.log"))
    in *.
  assert (fs (os s) !! parent full = Some Dir) as Hp.
  { unfold full, parent. unfold resolve, joinpath. simpl.
    unfold is_dir, resolve in Hd.
    destruct (absolute (global_logs (self s))).
    - rewrite removelast_last.
      by destruct (fs (os s) !! parts (global_logs (self s))) as [[]|].
    - rewrite app_assoc, removelast_last.
      by destruct (fs (os s) !! (cwd (os s) ++ parts (global_logs (self s)))) as [[]|]. }
  assert (resolve (os s) report ≠ full) as Hne.
  { intros E. rewrite E in Hr. congruence. }
  assert (∀ f c p, resolve (set_fs f c) p = resolve c p) as Hres by done.
  unfold touch. fold full. rewrite Hf. unfold create. rewrite Hp. cbn [os self].
  unfold open_append. rewrite Hres. fold full. cbn [fs set_fs].
  rewrite lookup_insert_eq. cbn [os self].
  unfold read_text. rewrite Hres. cbn [fs set_fs].
  rewrite lookup_insert_ne, Hr, Ht by done. cbn [os self].
  unfold write_append. rewrite Hres. fold full. cbn [fs set_fs].
  rewrite lookup_insert_eq. cbn [app]. by rewrite insert_insert_eq.
Qed.

End Runs.

(** * A concrete run

    A process standing in [/a], a collaborator that accepts everything,
    and one that refuses the logs. *)

Definition demo_gztar (members : list (list string * node)) : string :=
  String.concat ";" (map (λ m, join_parts m.1) members).

Definition la_ok : LogArea :=
  mkLogArea (λ _ _, Ok []) (λ _ _, Ok tt) (λ _ _, Ok tt).

Definition la_refuses_logs : LogArea :=
  mkLogArea (λ _ _, Ok []) (λ _ _, Raise (Failure "upload failed")) (λ _ _, Ok tt).

Definition la_refuses_artifacts : LogArea :=
  mkLogArea (λ _ _, Ok []) (λ _ _, Ok tt) (λ _ _, Raise (Failure "upload failed")).

Definition world0 : World :=
  mkWorld (<[ ["b"] := Dir ]> (<[ ["a"] := Dir ]> {[ [] := Dir ]}))
    ["a"] ∅ ["x1"; "x2"; "x3"].

(** Constructed, then entered: the process stands in [/a/workspace]. *)
Definition constructed : St := init la_ok world0.
Definition entered_with (la : LogArea) : St := state_of (enter None (init la world0)).
Definition inside : St := entered_with la_ok.

(** The caller went back to [/a] by itself. *)
Definition outside : St := state_of (io (chdir (Path true ["a"])) inside).


(** The caller moved to [/b] between construction and [__enter__]. *)
Definition moved : St := (run demo_gztar [Caller (chdir (Path true ["b"]))] constructed).1.

Definition returns : callback := λ w, (Ok tt, w).
Definition fails : callback := λ w, (Raise (Failure "boom"), w).

(** A test that writes its output and ends normally, and one that writes
    its output and raises. *)
Definition writes_output (d : path) : callback :=
  λ w, (Ok tt,
        set_fs (<[parts d ++ ["logs"; "test_output.log"] := File "out"]> (fs w)) w).
Definition writes_output_and_fails (d : path) : callback :=
  λ w, (Raise (Failure "boom"),
        set_fs (<[parts d ++ ["logs"; "test_output.log"] := File "out"]> (fs w)) w).

Lemma test_directory_requires_workspace_witness :
  test_directory "t" (Some returns) (λ _, returns) constructed
  = (Raise (FileNotFoundError "Workspace not created."), constructed, []).
Proof.
  apply (test_directory_requires_workspace "t" (Some returns) (λ _, returns) constructed).
  left. reflexivity.
Defined.

Lemma test_directory_restores_cwd_witness :
  cwd (os (state_of (test_directory "t" (Some returns) writes_output_and_fails inside)))
  = ["a"; "workspace"].
Proof.
  apply (test_directory_restores_cwd "t" (Some returns) writes_output_and_fails inside
           (Path true ["a"; "workspace"])).
  - repeat split; vm_compute; reflexivity.
  - vm_compute. reflexivity.
Defined.

Lemma test_directory_twice_witness :
  Path true ["a"; "workspace"; "tmpx1"] = Path true ["a"; "workspace"; "tmpx1"] ∧
  on_creates (trace_of (test_directory "t" (Some returns) writes_output inside)) = 1 ∧
  on_creates (trace_of
    (test_directory "t" (Some returns) writes_output
       (run demo_gztar []
          (state_of (test_directory "t" (Some returns) writes_output inside))).1)) = 0 ∧
  ∀ later,
    identifiers
      (self (run demo_gztar later
               (state_of (test_directory "t" (Some returns) writes_output inside))).1)
    !! "t" = Some (Path true ["a"; "workspace"; "tmpx1"]).
Proof.
  apply (test_directory_twice demo_gztar inside "t" returns returns
           writes_output writes_output []).
  - vm_compute. reflexivity.
  - vm_compute. repeat constructor.
  - vm_compute. repeat constructor.
Defined.


Lemma compress_archives_workspace_witness :
  ∃ members,
    compress demo_gztar outside
    = (Ok tt,
       mkSt (set_compressed_workspace (Some (Path true ["a"; "workspace.tar.gz"]))
               (self outside))
            (set_fs (<[ ["a"; "workspace.tar.gz"] := File (demo_gztar members)]>
                       (fs (os outside))) (os outside)),
       []) ∧
    ∀ k n, (k, n) ∈ members ↔
           ∃ below, k = "workspace" :: below ∧
                    fs (os outside) !! (["a"; "workspace"] ++ below) = Some n.
Proof.
  apply (compress_archives_workspace demo_gztar outside).
  - reflexivity.
  - reflexivity.
  - vm_compute. reflexivity.
  - reflexivity.
  - vm_compute. reflexivity.
  - vm_compute. intros H. discriminate H.
Defined.

Lemma exit_uploads_in_sequence_witness :
  (∃ logs artifacts cw,
     compressed_workspace (self (state_of (exit_ demo_gztar inside))) = Some cw ∧
     trace_of (exit_ demo_gztar inside)
     = [EvCollect (global_logs (self inside)); EvUploadLogs logs;
        EvCollect (global_artifacts (self inside)); EvUploadArtifacts artifacts;
        EvUploadArtifacts [Descriptor (name cw) cw]]) ∧
  (result_of (exit_ demo_gztar (entered_with la_refuses_logs))
   = Raise (Failure "upload failed") ∧
   trace_of (exit_ demo_gztar (entered_with la_refuses_logs))
   = [EvCollect (global_logs (self (entered_with la_refuses_logs))); EvUploadLogs []]) ∧
  (result_of (exit_ demo_gztar (entered_with la_refuses_artifacts))
   = Raise (Failure "upload failed") ∧
   ∃ logs,
     trace_of (exit_ demo_gztar (entered_with la_refuses_artifacts))
     = [EvCollect (global_logs (self (entered_with la_refuses_artifacts)));
        EvUploadLogs logs;
        EvCollect (global_artifacts (self (entered_with la_refuses_artifacts)));
        EvUploadArtifacts []]).
Proof.
  split; [|split].
  - apply (proj1 (exit_uploads_in_sequence demo_gztar inside)).
    vm_compute. reflexivity.
  - apply (proj1 (proj2 (exit_uploads_in_sequence demo_gztar (entered_with la_refuses_logs)))
             [] (Failure "upload failed")).
    + vm_compute. repeat constructor.
    + vm_compute. reflexivity.
  - apply (proj2 (proj2 (exit_uploads_in_sequence demo_gztar
                           (entered_with la_refuses_artifacts)))
             [] (Failure "upload failed")).
    + vm_compute. repeat constructor.
    + vm_compute. reflexivity.
    + vm_compute. reflexivity.
Defined.

Lemma exit_returns_to_construction_cwd_witness :
  cwd (os (state_of
    (exit_ demo_gztar
       (run demo_gztar
          ([Caller (chdir (Path true ["b"]))] ++ Enter None ::
             [TestDirectory "t" (Some returns) writes_output_and_fails])
          (init la_ok world0)).1)))
  = cwd world0 ∧
  (cwd (os (run demo_gztar [Caller (chdir (Path true ["b"]))] (init la_ok world0)).1)
   = cwd world0 →
   cwd (os (state_of
     (exit_ demo_gztar
        (run demo_gztar
           ([Caller (chdir (Path true ["b"]))] ++ Enter None ::
              [TestDirectory "t" (Some returns) writes_output_and_fails])
           (init la_ok world0)).1)))
   = cwd (os (run demo_gztar [Caller (chdir (Path true ["b"]))] (init la_ok world0)).1)).
Proof.
  apply (exit_returns_to_construction_cwd demo_gztar la_ok world0
           [Caller (chdir (Path true ["b"]))] None
           [TestDirectory "t" (Some returns) writes_output_and_fails]).
  vm_compute. reflexivity.
Defined.

(** Counterexample to C1 as stated: the collaborator refuses the global
    logs; the upload of the logs is attempted and fails, and no upload of
    artifacts, neither the global ones nor the archive, is attempted. *)
Lemma exit_stops_at_failed_upload :
  EvUploadLogs [] ∈ trace_of (exit_ demo_gztar (entered_with la_refuses_logs)) ∧
  result_of (exit_ demo_gztar (entered_with la_refuses_logs))
  = Raise (Failure "upload failed") ∧
  ¬ ∃ ds, EvUploadArtifacts ds ∈ trace_of (exit_ demo_gztar (entered_with la_refuses_logs)).
Proof.
  assert (trace_of (exit_ demo_gztar (entered_with la_refuses_logs))
          = [EvCollect (Path true ["a"; "logs"]); EvUploadLogs []]) as ->
    by (vm_compute; reflexivity).
  split; [repeat constructor|]. split; [vm_compute; reflexivity|].
  intros [ds H]. trace_inv.
Qed.

(** Counterexample to C4 as stated: the object is constructed in [/a], the
    caller moves to [/b] and only then enters; after [__exit__] the process
    stands in [/a], not in [/b] where it stood just before [__enter__]. *)
Lemma exit_not_back_to_enter_cwd :
  cwd (os moved) = ["b"] ∧
  result_of (enter None moved) = Ok tt ∧
  result_of (exit_ demo_gztar (state_of (enter None moved))) = Ok tt ∧
  cwd (os (state_of (exit_ demo_gztar (state_of (enter None moved))))) ≠ cwd (os moved).
Proof.
  split; [vm_compute; reflexivity|]. split; [vm_compute; reflexivity|].
  split; [vm_compute; reflexivity|]. vm_compute. intros H. discriminate H.
Qed.

(** Counterexample to C8 as stated: the workspace exists, the process still
    stands in it; [compress] raises [ValueError] and leaves no archive. *)
Lemma compress_inside_workspace_fails :
  workspace (self inside) = Some (Path true ["a"; "workspace"]) ∧
  is_dir (os inside) (Path true ["a"; "workspace"]) = true ∧
  result_of (compress demo_gztar inside) = Raise ValueError ∧
  compressed_workspace (self (state_of (compress demo_gztar inside))) = None ∧
  fs (os (state_of (compress demo_gztar inside))) !! ["a"; "workspace.tar.gz"] = None.
Proof. repeat split; vm_compute; reflexivity. Qed.

(** C2, at the input where the code departs from it: the block of an open
    test directory raises; the exception passes through [collect_logs],
    whose generator has no [finally], and the three variables are still
    set after the scope has closed. *)
Theorem environment_survives_failed_block :
  result_of (test_directory "t" None writes_output_and_fails inside)
  = Raise (Failure "boom") ∧
  environ (os (state_of (test_directory "t" None writes_output_and_fails inside)))
  !! "LOG_PATH" = Some "/a/workspace/tmpx1/logs" ∧
  environ (os (state_of (test_directory "t" None writes_output_and_fails inside)))
  !! "ARTIFACT_PATH" = Some "/a/workspace/tmpx1/artifacts" ∧
  environ (os (state_of (test_directory "t" None writes_output_and_fails inside)))
  !! "TEST_ARTIFACT_PATH" = Some "/a/workspace/tmpx1/artifacts".
Proof. repeat split; vm_compute; reflexivity. Qed.

(** The same scope with a block that ends normally: the variables are gone. *)
Example environment_cleared_after_block :
  result_of (test_directory "t" None writes_output inside) = Ok tt ∧
  environ (os (state_of (test_directory "t" None writes_output inside)))
  !! "LOG_PATH" = None ∧
  environ (os (state_of (test_directory "t" None writes_output inside)))
  !! "ARTIFACT_PATH" = None ∧
  environ (os (state_of (test_directory "t" None writes_output inside)))
  !! "TEST_ARTIFACT_PATH" = None.
Proof. repeat split; vm_compute; reflexivity. Qed.

(** C7, at the input where the code departs from it: the test wrote
    [logs/test_output.log] and then raised; when the scope has closed the
    file is there, and the cumulative log did not get its text (it was not
    even created). *)
Theorem output_of_failed_block_not_logged :
  result_of (test_directory "t" None writes_output_and_fails inside)
  = Raise (Failure "boom") ∧
  fs (os (state_of (test_directory "t" None writes_output_and_fails inside)))
  !! ["a"; "workspace"; "tmpx1"; "logs"; "test_output.log"] = Some (File "out") ∧
  fs (os (state_of (test_directory "t" None writes_output_and_fails inside)))
  !! ["a"; "logs"; "full_execution.log"] = None.
Proof. repeat split; vm_compute; reflexivity. Qed.

(** The same scope with a block that ends normally, twice: the text is
    appended, in order. *)
Example output_of_block_logged :
  fs (os (state_of (test_directory "t" None writes_output inside)))
  !! ["a"; "logs"; "full_execution.log"] = Some (File "out") ∧
  fs (os (state_of (test_directory "t" None writes_output
                      (state_of (test_directory "t" None writes_output inside)))))
  !! ["a"; "logs"; "full_execution.log"] = Some (File "outout").
Proof. repeat split; vm_compute; reflexivity. Qed.

(** * Further properties of the workspace *)

(** ** Construction and entry *)

(** The three paths computed in [__init__], for a process that stood in
    [top]. *)
Definition laid_out (o : Workspace) (top : list string) : Prop :=
  top_dir o = Path true top ∧
  global_logs o = Path true (top ++ ["logs"]) ∧
  global_artifacts o = Path true (top ++ ["artifacts"]).

(** Nothing but a directory, or nothing at all, at [k]. *)
Definition no_file (w : World) (k : list string) : Prop :=
  ∀ data, fs w !! k ≠ Some (File data).

(** The path [__enter__] takes for the workspace. *)
Definition chosen (o : Workspace) (p : option path) : path :=
  match p with Some p' => p' | None => joinpath (top_dir o) "workspace" end.

Lemma init_laid_out la w : laid_out (self (init la w)) (cwd w).
Proof. by repeat split. Qed.

Lemma layout_laid_out o o' top : layout o o' → laid_out o top → laid_out o' top.
Proof. intros (_ & Ht & Hl & Ha) (? & ? & ?). repeat split; congruence. Qed.

Lemma set_fs_id w : set_fs (fs w) w = w.
Proof. by destruct w. Qed.

Lemma child_ne_parent (top : list string) x : top ++ [x] ≠ top.
Proof.
  intros H. apply (f_equal length) in H. rewrite length_app in H. simpl in H. lia.
Qed.

Lemma mkdir_exist_ok_child top x w :
  fs w !! top = Some Dir → no_file w (top ++ [x]) →
  mkdir_exist_ok (Path true (top ++ [x])) w
  = (Ok tt, set_fs (<[top ++ [x] := Dir]> (fs w)) w).
Proof.
  intros Ht Hn. unfold mkdir_exist_ok, resolve. simpl.
  destruct (fs w !! (top ++ [x])) as [[|data]|] eqn:E.
  - by rewrite insert_id, set_fs_id.
  - by destruct (Hn data).
  - unfold create, parent. by rewrite removelast_last, Ht.
Qed.

#[global] Existing Instance dirs_kept_preorder.

Lemma mkdir_exist_ok_dirs p : io_frames dirs_kept (mkdir_exist_ok p).
Proof.
  intros w. unfold mkdir_exist_ok.
  destruct (fs w !! resolve w p) as [[]|] eqn:E; [reflexivity..|].
  by apply create_kept.
Qed.


(** [__enter__] where it can succeed. *)
Lemma enter_run s top :
  laid_out (self s) top →
  fs (os s) !! top = Some Dir →
  no_file (os s) (top ++ ["workspace"]) →
  no_file (os s) (top ++ ["logs"]) →
  no_file (os s) (top ++ ["artifacts"]) →
  enter None s
  = (Ok tt,
     mkSt (set_workspace (Some (Path true (top ++ ["workspace"]))) (self s))
          (set_cwd (top ++ ["workspace"])
             (set_fs (<[top ++ ["artifacts"] := Dir]>
                        (<[top ++ ["logs"] := Dir]>
                           (<[top ++ ["workspace"] := Dir]> (fs (os s))))) (os s))),
     []).
Proof.
  intros (Ht & Hl & Ha) Htop Hw Hlg Har. destruct s as [o w]. simpl in *.
  unfold enter. msimpl. rewrite Ht, Hl, Ha. unfold joinpath. simpl.
  rewrite relative_to_below. simpl.
  rewrite (mkdir_exist_ok_child top "workspace" w Htop Hw). simpl.
  rewrite (mkdir_exist_ok_child top "logs"); simpl.
  2:{ rewrite lookup_insert_ne; [done|apply child_ne_parent]. }
  2:{ intros data. simpl. rewrite lookup_insert_ne; [apply Hlg|].
      intros H. by apply app_inv_head in H. }
  rewrite (mkdir_exist_ok_child top "artifacts"); simpl.
  2:{ rewrite !lookup_insert_ne; [done|apply child_ne_parent..]. }
  2:{ intros data. simpl. rewrite !lookup_insert_ne; [apply Har|..];
      intros H; by apply app_inv_head in H. }
  unfold chdir, resolve. simpl.
  rewrite lookup_insert_ne by (intros H; by apply app_inv_head in H).
  rewrite lookup_insert_ne by (intros H; by apply app_inv_head in H).
  by rewrite lookup_insert_eq.
Qed.

(** X1: a workspace whose [top_dir] exists, with no file in the way of
    [workspace], [logs] and [artifacts], can be entered: the three
    directories are there afterwards (created when missing, left alone
    when present), the process stands in [top_dir/workspace], the object
    records that directory, and nothing else changes.  Entering once more
    changes nothing at all. *)
Theorem enter_creates_workspace s top :
  laid_out (self s) top →
  fs (os s) !! top = Some Dir →
  no_file (os s) (top ++ ["workspace"]) →
  no_file (os s) (top ++ ["logs"]) →
  no_file (os s) (top ++ ["artifacts"]) →
  enter None s
  = (Ok tt,
     mkSt (set_workspace (Some (Path true (top ++ ["workspace"]))) (self s))
          (set_cwd (top ++ ["workspace"])
             (set_fs (<[top ++ ["artifacts"] := Dir]>
                        (<[top ++ ["logs"] := Dir]>
                           (<[top ++ ["workspace"] := Dir]> (fs (os s))))) (os s))),
     []) ∧
  enter None (state_of (enter None s)) = (Ok tt, state_of (enter None s), []).
Proof.
  intros Hl Htop Hw Hlg Har.
  pose proof (enter_run s top Hl Htop Hw Hlg Har) as E1. split; [exact E1|].
  rewrite E1. unfold state_of. simpl.
  set (f1 := <[top ++ ["artifacts"] := Dir]>
               (<[top ++ ["logs"] := Dir]>
                  (<[top ++ ["workspace"] := Dir]> (fs (os s))))).
  assert (f1 !! (top ++ ["workspace"]) = Some Dir) as Hfw.
  { unfold f1. rewrite !lookup_insert_ne by (intros H; by apply app_inv_head in H).
    apply lookup_insert_eq. }
  assert (f1 !! (top ++ ["logs"]) = Some Dir) as Hfl.
  { unfold f1. rewrite lookup_insert_ne by (intros H; by apply app_inv_head in H).
    apply lookup_insert_eq. }
  assert (f1 !! (top ++ ["artifacts"]) = Some Dir) as Hfa.
  { unfold f1. apply lookup_insert_eq. }
  assert (f1 !! top = Some Dir) as Hft.
  { unfold f1. by rewrite !lookup_insert_ne by apply child_ne_parent. }
  rewrite (enter_run _ top); simpl.
  - destruct Hl as (Ht & _). destruct s as [o w]. simpl in *.
    rewrite !(insert_id f1) by done. by destruct o.
  - destruct Hl as (? & ? & ?). by repeat split.
  - exact Hft.
  - intros data. change (f1 !! (top ++ ["workspace"]) ≠ Some (File data)). congruence.
  - intros data. change (f1 !! (top ++ ["logs"]) ≠ Some (File data)). congruence.
  - intros data. change (f1 !! (top ++ ["artifacts"]) ≠ Some (File data)). congruence.
Qed.

Lemma chdir_dirs p : io_frames (λ w w', fs w' = fs w) (chdir p).
Proof. intros w. apply chdir_fs. Qed.

Lemma chdir_raise_cwd p w e w' : chdir p w = (Raise e, w') → w' = w.
Proof.
  unfold chdir. destruct (fs w !! resolve w p) as [[]|]; [done|by intros [= _ <-]..].
Qed.


Lemma mkdir_exist_ok_cwd p w : cwd (mkdir_exist_ok p w).2 = cwd w.
Proof. apply (mkdir_exist_ok_dirs p w). Qed.

Lemma mkdir_exist_ok_kept p w k :
  fs w !! k = Some Dir → fs (mkdir_exist_ok p w).2 !! k = Some Dir.
Proof. apply (mkdir_exist_ok_dirs p w). Qed.

(** X2: [__enter__] records the workspace directory before it does
    anything else, so the object names it whether or not the call goes
    through; the call removes no directory; and when it raises, the
    process has not moved. *)
Theorem enter_failure_stays_put p s :
  self (state_of (enter p s)) = set_workspace (Some (chosen (self s) p)) (self s) ∧
  (∀ k, fs (os s) !! k = Some Dir → fs (os (state_of (enter p s))) !! k = Some Dir) ∧
  (∀ e, result_of (enter p s) = Raise e →
        cwd (os (state_of (enter p s))) = cwd (os s)).
Proof.
  unfold enter. msimpl. fold (chosen (self s) p).
  destruct (relative_to (chosen (self s) p) (top_dir (self s))) as [q|]; simpl;
    [|by repeat split].
  pose proof (mkdir_exist_ok_cwd (chosen (self s) p) (os s)) as Hc1.
  pose proof (mkdir_exist_ok_kept (chosen (self s) p) (os s)) as Hk1.
  destruct (mkdir_exist_ok (chosen (self s) p) (os s)) as [[[]|e1] w1]; simpl in *;
    [|by repeat split].
  pose proof (mkdir_exist_ok_cwd (global_logs (self s)) w1) as Hc2.
  pose proof (mkdir_exist_ok_kept (global_logs (self s)) w1) as Hk2.
  destruct (mkdir_exist_ok (global_logs (self s)) w1) as [[[]|e2] w2]; simpl in *;
    [|split; [done|split; [by auto|intros; congruence]]].
  pose proof (mkdir_exist_ok_cwd (global_artifacts (self s)) w2) as Hc3.
  pose proof (mkdir_exist_ok_kept (global_artifacts (self s)) w2) as Hk3.
  destruct (mkdir_exist_ok (global_artifacts (self s)) w2) as [[[]|e3] w3]; simpl in *;
    [|split; [done|split; [by auto|intros; congruence]]].
  pose proof (chdir_fs (chosen (self s) p) w3) as Hf.
  destruct (chdir (chosen (self s) p) w3) as [[[]|e4] w4] eqn:E4; simpl in *.
  - split; [done|]. split; [|done]. intros k Hk. rewrite Hf. auto.
  - apply chdir_raise_cwd in E4 as ->.
    split; [done|split; [by auto|intros; congruence]].
Qed.


(** ** Compression *)

Section Compression.

Variable gztar : list (list string * node) → string.

(** The environment and the supply of temporary names are left alone. *)
Definition env_same (w w' : World) : Prop :=
  environ w' = environ w ∧ tmp_names w' = tmp_names w.

#[local] Instance env_same_preorder : PreOrder env_same.
Proof.
  split; [by intros w|]. intros w1 w2 w3 [? ?] [? ?]. split; congruence.
Qed.

Lemma io_frames_finally {A} (R : relation World) `{!PreOrder R}
    (body : IO A) (fin : IO unit) :
  io_frames R body → io_frames R fin → io_frames R (io_finally body fin).
Proof.
  intros Hb Hf w. unfold io_finally. specialize (Hb w).
  destruct (body w) as [r w1]. specialize (Hf w1).
  destruct (fin w1) as [[[]|e] w2]; simpl in *; by etrans.
Qed.

Lemma chdir_env p : io_frames env_same (chdir p).
Proof. intros w. unfold chdir. by destruct (fs w !! resolve w p) as [[]|]. Qed.

Lemma create_env k n : io_frames env_same (create k n).
Proof. intros w. unfold create. by destruct (fs w !! parent k) as [[]|]. Qed.

Lemma write_file_env k data : io_frames env_same (write_file k data).
Proof.
  intros w. unfold write_file. destruct (fs w !! k) as [[]|]; [done..|].
  apply create_env.
Qed.

Lemma makedirs_from_env seen rest : io_frames env_same (makedirs_from seen rest).
Proof.
  revert seen. induction rest as [|x rest IH]; intros seen w; simpl; [done|].
  destruct (fs w !! (seen ++ [x])) as [[]|]; [apply IH|done|].
  apply (io_frames_bind env_same); [apply create_env|intros _; apply IH].
Qed.

Lemma make_tarball_env bn bd : io_frames env_same (make_tarball gztar bn bd).
Proof.
  unfold make_tarball, tar_add.
  repeat (apply io_frames_bind; [apply _| |intros ?]).
  - intros w. unfold ensure_dir. destruct (fs w !! _); [done|].
    apply makedirs_from_env.
  - apply write_file_env.
  - intros w. unfold lstat. by destruct (exists_ w bd).
  - intros w. apply write_file_env.
  - by intros w.
Qed.

Lemma make_archive_env bn rd bd : io_frames env_same (make_archive gztar bn rd bd).
Proof.
  unfold make_archive.
  repeat (apply io_frames_bind; [apply _| |intros ?]); try by intros w.
  - apply chdir_env.
  - apply io_frames_finally; [apply _|apply make_tarball_env|apply chdir_env].
Qed.

(** X4: compressing before the workspace exists raises
    [FileNotFoundError("Workspace not created.")] and changes nothing. *)
Theorem compress_requires_workspace s :
  workspace (self s) = None ∨
  (∃ ws, workspace (self s) = Some ws ∧ is_dir (os s) ws = false) →
  compress gztar s = (Raise (FileNotFoundError "Workspace not created."), s, []).
Proof.
  intros H. unfold compress. apply bind_raise. unfold require_workspace.
  destruct H as [Hw|(ws & Hw & Hd)]; rewrite Hw; [reflexivity|].
  rewrite Hd. reflexivity.
Qed.

(** X5: whether it succeeds or fails, [compress] called from an existing
    directory leaves the process in that directory, removes no directory,
    does not touch the environment, and changes no field of the object but
    [compressed_workspace], which it sets only when it returns normally. *)
Theorem compress_keeps_place s :
  fs (os s) !! cwd (os s) = Some Dir →
  cwd (os (state_of (compress gztar s))) = cwd (os s) ∧
  (∀ k, fs (os s) !! k = Some Dir → fs (os (state_of (compress gztar s))) !! k = Some Dir) ∧
  environ (os (state_of (compress gztar s))) = environ (os s) ∧
  layout_ws (self s) (self (state_of (compress gztar s))) ∧
  identifiers (self (state_of (compress gztar s))) = identifiers (self s) ∧
  (∀ e, result_of (compress gztar s) = Raise e →
        self (state_of (compress gztar s)) = self s).
Proof.
  intros Hcwd. destruct (compress_kept gztar s Hcwd) as [Hc Hk].
  split; [done|]. split; [done|].
  unfold compress, require_workspace. msimpl.
  destruct (workspace (self s)) as [ws|]; [|by repeat split].
  destruct (is_dir (os s) ws); [|by repeat split]. simpl.
  destruct (relative_to _ _) as [q1|]; [|by repeat split]. simpl.
  destruct (relative_to _ _) as [q2|]; [|by repeat split]. simpl.
  destruct (relative_to _ _) as [q3|]; [|by repeat split]. simpl.
  pose proof (make_archive_env q1 q2 q3 (os s)) as [He _].
  destruct (make_archive gztar q1 q2 q3 (os s)) as [[a|e] w1]; simpl in *;
    by repeat split.
Qed.

(** The archive file [compress] writes when it stands in [top]. *)
Definition archive_of (w : World) (top : list string) : node :=
  File (gztar (tar_members
    (set_fs (<[top ++ ["workspace.tar.gz"] := File (gztar [])]> (fs w)) w)
    (Path false ["workspace"]) (top ++ ["workspace.tar.gz"]))).

Lemma compress_run s top :
  top_dir (self s) = Path true top →
  workspace (self s) = Some (Path true (top ++ ["workspace"])) →
  fs (os s) !! (top ++ ["workspace"]) = Some Dir →
  cwd (os s) = top →
  fs (os s) !! top = Some Dir →
  fs (os s) !! (top ++ ["workspace.tar.gz"]) ≠ Some Dir →
  compress gztar s
  = (Ok tt,
     mkSt (set_compressed_workspace (Some (Path true (top ++ ["workspace.tar.gz"])))
             (self s))
          (set_fs (<[top ++ ["workspace.tar.gz"] := archive_of (os s) top]> (fs (os s)))
             (os s)),
     []).
Proof.
  destruct s as [o w]. simpl. intros Htop Hws Hwsd Hcwd Htopd Harch.
  unfold compress, require_workspace. msimpl. rewrite Hws.
  unfold is_dir, resolve. simpl. rewrite Hwsd. simpl.
  rewrite Htop, Hcwd. unfold joinpath. simpl.
  rewrite relative_to_below, relative_to_self. simpl.
  subst top.
  rewrite (make_archive_ok gztar "workspace" (Path false ["workspace"]) w); simpl;
    try done.
  - unfold exists_, resolve. simpl. by rewrite Hwsd.
  - intros H. by apply app_inv_head in H.
Qed.

Lemma write_file_ok k data w w' :
  write_file k data w = (Ok tt, w') → fs w' !! k = Some (File data).
Proof.
  unfold write_file, create. destruct (fs w !! k) as [[]|]; [done| |].
  - intros [= <-]. apply lookup_insert_eq.
  - destruct (fs w !! parent k) as [[]|]; [|done..].
    intros [= <-]. apply lookup_insert_eq.
Qed.

Lemma make_tarball_ok_file bn bd w a w' :
  make_tarball gztar bn bd w = (Ok a, w') →
  absolute a = true ∧ ∃ data, fs w' !! parts a = Some (File data).
Proof.
  unfold make_tarball, tar_add, write_members, mbind, IO_bind, mret, IO_ret.
  destruct (ensure_dir _ w) as [[[]|] w1]; [|done].
  destruct (write_file _ _ w1) as [[[]|] w2]; [|done].
  destruct (lstat bd w2) as [[[]|] w3]; [|done].
  destruct (write_file _ _ w3) as [[[]|] w4] eqn:E; [|done].
  intros [= <- <-]. split; [done|]. apply write_file_ok in E. eauto.
Qed.

Lemma make_archive_ok_file bn rd bd w a w' :
  make_archive gztar bn rd bd w = (Ok a, w') →
  absolute a = true ∧ ∃ data, fs w' !! parts a = Some (File data).
Proof.
  unfold make_archive, getcwd, abspath, mbind, IO_bind, io_finally.
  destruct (chdir rd w) as [[[]|] w1]; [|done].
  destruct (make_tarball gztar _ bd w1) as [[a'|] w2] eqn:E.
  - pose proof (chdir_fs (Path true (cwd w)) w2) as Hf.
    destruct (chdir _ w2) as [[[]|] w3]; [|done]. simpl in Hf.
    intros [= <- <-]. rewrite Hf. by apply make_tarball_ok_file in E.
  - by destruct (chdir _ w2) as [[[]|] w3].
Qed.

Lemma compress_ok_file s :
  result_of (compress gztar s) = Ok tt →
  ∃ cw data,
    compressed_workspace (self (state_of (compress gztar s))) = Some cw ∧
    absolute cw = true ∧
    fs (os (state_of (compress gztar s))) !! parts cw = Some (File data).
Proof.
  unfold compress, require_workspace. msimpl.
  destruct (workspace (self s)) as [ws|]; [|done].
  destruct (is_dir (os s) ws); [|done]. simpl.
  destruct (relative_to _ _) as [q1|]; [|done]. simpl.
  destruct (relative_to _ _) as [q2|]; [|done]. simpl.
  destruct (relative_to _ _) as [q3|]; [|done]. simpl.
  destruct (make_archive gztar q1 q2 q3 (os s)) as [[a|e] w1] eqn:E; simpl; [|done].
  intros _. apply make_archive_ok_file in E as [Ha [data Hd]]. by exists a, data.
Qed.

Lemma exit_after_chdir s w1 :
  chdir (top_dir (self s)) (os s) = (Ok tt, w1) →
  exit_ gztar s
  = match compress gztar (mkSt (self s) w1) with
    | (Ok _, sc, tc) =>
        ((uploads_outcome (log_area (self sc)) (global_logs (self s))
            (global_artifacts (self s)) (compressed_workspace (self sc)) (os sc)).1,
         sc,
         tc ++ (uploads_outcome (log_area (self sc)) (global_logs (self s))
                  (global_artifacts (self s)) (compressed_workspace (self sc)) (os sc)).2)
    | (Raise e, sc, tc) => (Raise e, sc, tc)
    end.
Proof.
  intros E. rewrite exit_unfold. msimpl. rewrite E. simpl.
  destruct (compress gztar _) as [[[[]|e] sc] tc]; [|done].
  by rewrite exit_uploads_run.
Qed.

(** X7: [__exit__] calls the collaborator only once the archive is
    written: whenever it makes any call at all, [compressed_workspace]
    names a file that exists. *)
Theorem exit_uploads_after_archive s :
  trace_of (exit_ gztar s) ≠ [] →
  ∃ cw data,
    compressed_workspace (self (state_of (exit_ gztar s))) = Some cw ∧
    fs (os (state_of (exit_ gztar s))) !! parts cw = Some (File data).
Proof.
  destruct (chdir_cases (top_dir (self s)) (os s)) as [[_ E]|[_ [e E]]].
  - rewrite (exit_after_chdir s _ E).
    set (s1 := mkSt (self s) _).
    pose proof (emits_nothing (compress gztar) s1 (compress_emits gztar _)) as Ht.
    pose proof (compress_ok_file s1) as Hf.
    unfold trace_of, state_of, result_of in *.
    destruct (compress gztar s1) as [[[[]|e] sc] tc]; simpl in *; subst tc;
      [|done].
    intros _. destruct (Hf eq_refl) as (cw & data & ? & _ & ?). by exists cw, data.
  - rewrite exit_unfold. msimpl. by rewrite E.
Qed.

(** X8: leaving a workspace that is not there.  With [top_dir] in place
    but no workspace directory, [__exit__] moves the process to [top_dir],
    raises [FileNotFoundError("Workspace not created.")] out of [compress]
    and makes no call to the collaborator: the global logs and artifacts
    are not uploaded either. *)
Theorem exit_requires_workspace s top :
  top_dir (self s) = Path true top →
  fs (os s) !! top = Some Dir →
  workspace (self s) = None ∨
  (∃ ws, workspace (self s) = Some ws ∧ absolute ws = true ∧
         is_dir (os s) ws = false) →
  exit_ gztar s
  = (Raise (FileNotFoundError "Workspace not created."),
     mkSt (self s) (set_cwd top (os s)), []).
Proof.
  intros Ht Hd Hw.
  assert (chdir (top_dir (self s)) (os s) = (Ok tt, set_cwd top (os s))) as E.
  { rewrite Ht. apply (chdir_cwd (Path true top)); [done|].
    unfold is_dir, resolve. simpl. by rewrite Hd. }
  rewrite (exit_after_chdir s _ E).
  assert (compress gztar (mkSt (self s) (set_cwd top (os s)))
          = (Raise (FileNotFoundError "Workspace not created."),
             mkSt (self s) (set_cwd top (os s)), [])) as ->; [|done].
  unfold compress. apply bind_raise. unfold require_workspace. simpl.
  destruct Hw as [->|(ws & -> & Ha & Hn)]; [done|].
  by rewrite (is_dir_absolute (os s) (set_cwd top (os s)) ws Ha eq_refl), Hn.
Qed.

(** A collaborator that accepts everything. *)
Definition accepting (la : LogArea) : Prop :=
  (∀ p w, ∃ ds, collect la p w = Ok ds) ∧
  (∀ ds w, upload_logs la ds w = Ok tt) ∧
  (∀ ds w, upload_artifacts la ds w = Ok tt).

(** X9: entering and leaving at once.  Where the workspace can be
    entered, no directory stands in the way of the archive and the
    collaborator accepts what it is given, [__exit__] right after
    [__enter__] returns normally with the process back in [top_dir]; the
    archive [top_dir/workspace.tar.gz] exists, holds the (empty)
    [workspace] directory and is recorded in [compressed_workspace]; and
    the collaborator was asked for the global logs, then the global
    artifacts, then the archive under the name [workspace.tar.gz]. *)
Theorem enter_then_exit s top :
  laid_out (self s) top →
  fs (os s) !! top = Some Dir →
  no_file (os s) (top ++ ["workspace"]) →
  no_file (os s) (top ++ ["logs"]) →
  no_file (os s) (top ++ ["artifacts"]) →
  fs (os s) !! (top ++ ["workspace.tar.gz"]) ≠ Some Dir →
  accepting (log_area (self s)) →
  result_of (exit_ gztar (state_of (enter None s))) = Ok tt ∧
  cwd (os (state_of (exit_ gztar (state_of (enter None s))))) = top ∧
  compressed_workspace (self (state_of (exit_ gztar (state_of (enter None s)))))
  = Some (Path true (top ++ ["workspace.tar.gz"])) ∧
  (∃ members,
     fs (os (state_of (exit_ gztar (state_of (enter None s)))))
     !! (top ++ ["workspace.tar.gz"]) = Some (File (gztar members)) ∧
     (["workspace"], Dir) ∈ members) ∧
  ∃ logs artifacts,
    trace_of (exit_ gztar (state_of (enter None s)))
    = [EvCollect (Path true (top ++ ["logs"])); EvUploadLogs logs;
       EvCollect (Path true (top ++ ["artifacts"])); EvUploadArtifacts artifacts;
       EvUploadArtifacts
         [Descriptor "workspace.tar.gz" (Path true (top ++ ["workspace.tar.gz"]))]].
Proof.
  intros Hl Htop Hw Hlg Har Harch (Hc & Hul & Hua).
  pose proof (enter_run s top (conj (proj1 Hl) (proj2 Hl)) Htop Hw Hlg Har) as E1.
  destruct Hl as (Ht & Hgl & Hga).
  set (f1 := <[top ++ ["artifacts"] := Dir]>
               (<[top ++ ["logs"] := Dir]>
                  (<[top ++ ["workspace"] := Dir]> (fs (os s))))) in *.
  assert (f1 !! (top ++ ["workspace"]) = Some Dir) as Hfw.
  { unfold f1. rewrite !lookup_insert_ne by (intros H; by apply app_inv_head in H).
    apply lookup_insert_eq. }
  assert (f1 !! top = Some Dir) as Hft.
  { unfold f1. by rewrite !lookup_insert_ne by apply child_ne_parent. }
  assert (f1 !! (top ++ ["workspace.tar.gz"]) ≠ Some Dir) as Hfa.
  { unfold f1. by rewrite !lookup_insert_ne by (intros H; by apply app_inv_head in H). }
  set (s1 := mkSt (set_workspace (Some (Path true (top ++ ["workspace"]))) (self s))
               (set_cwd (top ++ ["workspace"]) (set_fs f1 (os s)))) in *.
  assert (state_of (enter None s) = s1) as -> by (by rewrite E1).
  assert (chdir (top_dir (self s1)) (os s1) = (Ok tt, set_cwd top (os s1))) as E.
  { simpl. rewrite Ht. apply (chdir_cwd (Path true top)); [done|].
    unfold is_dir, resolve. simpl. by rewrite Hft. }
  rewrite (exit_after_chdir s1 _ E).
  rewrite (compress_run _ top); simpl; try done.
  rewrite Hgl, Hga.
  unfold uploads_outcome.
  match goal with |- context [collect ?la ?p ?w] =>
    destruct (Hc p w) as [logs ->] end.
  rewrite Hul.
  match goal with |- context [collect ?la ?p ?w] =>
    destruct (Hc p w) as [artifacts ->] end.
  rewrite Hua. simpl. rewrite Hua.
  assert (name (Path true (top ++ ["workspace.tar.gz"])) = "workspace.tar.gz") as ->
    by (unfold name; simpl; apply last_last).
  unfold result_of, state_of, trace_of. simpl.
  split; [done|]. split; [done|]. split; [done|]. split; [|by exists logs, artifacts].
  eexists. split; [apply lookup_insert_eq|].
  apply tar_members_spec. exists []. unfold resolve. simpl.
  rewrite app_nil_r. split; [done|]. split.
  - rewrite lookup_insert_ne; [exact Hfw|]. intros H. by apply app_inv_head in H.
  - intros H. by apply app_inv_head in H.
Qed.

End Compression.

(** X6: compressing can be repeated.  Where [compress] succeeds (the
    process in [top_dir], the workspace in its place), a second call
    returns normally as well: it records the same path, writes at the same
    place an archive of the same members and leaves everything else as the
    first call left it.  The bytes of an archive are those of its own
    writing (the compressed stream carries the time), so each of the two
    calls is given its own [gztar] and nothing is said of the bytes being
    the same. *)
Theorem compress_twice gztar1 gztar2 s top :
  top_dir (self s) = Path true top →
  workspace (self s) = Some (Path true (top ++ ["workspace"])) →
  fs (os s) !! (top ++ ["workspace"]) = Some Dir →
  cwd (os s) = top →
  fs (os s) !! top = Some Dir →
  fs (os s) !! (top ++ ["workspace.tar.gz"]) ≠ Some Dir →
  ∃ members1 members2,
    compress gztar1 s
    = (Ok tt,
       mkSt (set_compressed_workspace (Some (Path true (top ++ ["workspace.tar.gz"])))
               (self s))
            (set_fs (<[top ++ ["workspace.tar.gz"] := File (gztar1 members1)]>
                       (fs (os s))) (os s)),
       []) ∧
    compress gztar2 (state_of (compress gztar1 s))
    = (Ok tt,
       mkSt (set_compressed_workspace (Some (Path true (top ++ ["workspace.tar.gz"])))
               (self s))
            (set_fs (<[top ++ ["workspace.tar.gz"] := File (gztar2 members2)]>
                       (fs (os s))) (os s)),
       []) ∧
    ∀ k n, (k, n) ∈ members1 ↔ (k, n) ∈ members2.
Proof.
  intros Htop Hws Hwsd Hcwd Htopd Harch.
  assert (top ++ ["workspace.tar.gz"] ≠ top ++ ["workspace"]) as Hne1
    by (intros H; by apply app_inv_head in H).
  eexists _, _. split; [|split].
  - rewrite (compress_run gztar1 s top) by done. unfold archive_of. reflexivity.
  - rewrite (compress_run gztar1 s top) by done. unfold state_of. simpl.
    rewrite (compress_run gztar2 _ top); simpl; try done.
    + unfold archive_of. simpl. rewrite !insert_insert_eq.
      destruct s as [[] []]. reflexivity.
    + by rewrite lookup_insert_ne.
    + rewrite lookup_insert_ne; [done|apply child_ne_parent].
    + by rewrite lookup_insert_eq.
  - intros k n. rewrite !tar_members_spec. unfold resolve. simpl.
    split; intros (suffix & -> & Hl & Hne); exists suffix; (split; [done|]);
      (split; [|done]); rewrite lookup_insert_ne in Hl by done;
      by rewrite lookup_insert_ne.
Qed.

(** ** The cumulative log *)

(** Where the cumulative log lives, and what it holds. *)
Definition full_log_key (s : St) : list string :=
  resolve (os s) (joinpath (global_logs (self s)) "full_execution.log").

Definition full_log_text (s : St) : string :=
  match fs (os s) !! full_log_key s with Some (File t) => t | _ => "" end.

Lemma add_to_full_log_run report s data text :
  fs (os s) !! resolve (os s) report = Some (File data) →
  decode_text data = Ok text →
  is_dir (os s) (global_logs (self s)) = true →
  fs (os s) !! full_log_key s ≠ Some Dir →
  add_to_full_log report s
  = (Ok tt,
     mkSt (self s)
       (set_fs (<[full_log_key s := File (full_log_text s +:+ text)]> (fs (os s))) (os s)),
     []).
Proof.
  intros Hr Ht Hd Hn. unfold full_log_text, full_log_key in *.
  destruct (fs (os s) !! resolve (os s) (joinpath _ _)) as [[|old]|] eqn:E; [done| |].
  - by apply (add_to_full_log_appends report s data).
  - by apply (add_to_full_log_creates report s data).
Qed.

(** Bytes that need no decoding: ASCII, and no carriage return. *)
Definition plain_byte (c : Ascii.ascii) : bool :=
  (Ascii.N_of_ascii c <=? 127)%N && negb (Ascii.eqb c CR).

Fixpoint plain_text (data : string) : bool :=
  match data with
  | EmptyString => true
  | String c rest => plain_byte c && plain_text rest
  end.

Lemma decode_text_plain data : plain_text data = true → decode_text data = Ok data.
Proof.
  intros H. unfold decode_text, utf8_valid.
  assert (utf8_valid_from Utf8Start data = true ∧ universal_newlines data = data)
    as [-> ->]; [|done].
  induction data as [|c rest IH]; simpl in *; [done|].
  apply andb_true_iff in H as [Hc Hrest]. destruct (IH Hrest) as [IH1 IH2].
  unfold plain_byte in Hc. apply andb_true_iff in Hc as [Hc1 Hc2].
  unfold utf8_lead. rewrite Hc1, IH1. split; [done|].
  apply negb_true_iff in Hc2. by rewrite Hc2, IH2.
Qed.

(** X10: a report that exists is appended to the cumulative log.  With
    the directory of the global logs in place and a report that
    [read_text] can read (well-formed UTF-8), [add_to_full_log] returns
    normally and the only thing it changes is [full_execution.log], which
    afterwards holds what it held before (nothing, when it did not exist)
    followed by the text of the report as [read_text] gives it: its bytes,
    with every [CR LF] and every lone [CR] turned into [LF].  Two reports
    in a row end up one after the other, in the order of the calls. *)
Theorem add_to_full_log_appends_in_order r1 r2 s d1 d2 t1 t2 :
  fs (os s) !! resolve (os s) r1 = Some (File d1) →
  fs (os s) !! resolve (os s) r2 = Some (File d2) →
  decode_text d1 = Ok t1 →
  decode_text d2 = Ok t2 →
  resolve (os s) r2 ≠ full_log_key s →
  is_dir (os s) (global_logs (self s)) = true →
  fs (os s) !! full_log_key s ≠ Some Dir →
  add_to_full_log r1 s
  = (Ok tt,
     mkSt (self s)
       (set_fs (<[full_log_key s := File (full_log_text s +:+ t1)]> (fs (os s))) (os s)),
     []) ∧
  add_to_full_log r2 (state_of (add_to_full_log r1 s))
  = (Ok tt,
     mkSt (self s)
       (set_fs (<[full_log_key s := File ((full_log_text s +:+ t1) +:+ t2)]> (fs (os s)))
          (os s)),
     []).
Proof.
  intros H1 H2 Ht1 Ht2 Hne Hd Hn.
  pose proof (add_to_full_log_run r1 s d1 t1 H1 Ht1 Hd Hn) as E1. split; [exact E1|].
  rewrite E1. unfold state_of. simpl.
  set (s1 := mkSt _ _).
  assert (full_log_key s1 = full_log_key s) as Hk by done.
  rewrite (add_to_full_log_run r2 s1 d2 t2).
  - rewrite Hk. unfold full_log_text. rewrite Hk. simpl.
    rewrite lookup_insert_eq, insert_insert_eq. done.
  - simpl. change (resolve (set_fs _ (os s)) r2) with (resolve (os s) r2).
    by rewrite lookup_insert_ne.
  - done.
  - unfold is_dir in *. simpl.
    change (resolve (set_fs _ (os s)) (global_logs (self s)))
      with (resolve (os s) (global_logs (self s))).
    destruct (decide (full_log_key s = resolve (os s) (global_logs (self s)))) as [Heq|Hneq].
    + rewrite <- Heq in Hd. by destruct (fs (os s) !! full_log_key s) as [[]|].
    + by rewrite lookup_insert_ne.
  - rewrite Hk. simpl. by rewrite lookup_insert_eq.
Qed.

(** X11: the edges of [add_to_full_log].  A report that does not exist
    is skipped: nothing changes and nothing is raised.  A report that is
    a directory raises [IsADirectoryError], but only after the cumulative
    log has been created, empty, when it was missing.  And when the
    directory of the global logs is missing, creating the cumulative log
    raises [FileNotFoundError] and nothing changes. *)
Theorem add_to_full_log_edges report s :
  (exists_ (os s) report = false → add_to_full_log report s = (Ok tt, s, [])) ∧
  (fs (os s) !! resolve (os s) report = Some Dir →
   is_dir (os s) (global_logs (self s)) = true →
   fs (os s) !! full_log_key s = None →
   add_to_full_log report s
   = (Raise IsADirectoryError,
      mkSt (self s) (set_fs (<[full_log_key s := File ""]> (fs (os s))) (os s)),
      [])) ∧
  (exists_ (os s) report = true →
   fs (os s) !! full_log_key s = None →
   fs (os s) !! parent (full_log_key s) = None →
   ∃ msg, add_to_full_log report s = (Raise (FileNotFoundError msg), s, [])).
Proof.
  split; [|split].
  - intros H. unfold add_to_full_log. msimpl. by rewrite H.
  - intros Hr Hd Hf. unfold add_to_full_log, full_log_key in *. msimpl.
    unfold exists_. rewrite Hr.
    set (full := resolve (os s) (joinpath (global_logs (self s)) "full_execution.log"))
      in *.
    assert (fs (os s) !! parent full = Some Dir) as Hp.
    { unfold full, parent. unfold resolve, joinpath. simpl.
      unfold is_dir, resolve in Hd.
      destruct (absolute (global_logs (self s))).
      - rewrite removelast_last.
        by destruct (fs (os s) !! parts (global_logs (self s))) as [[]|].
      - rewrite app_assoc, removelast_last.
        by destruct (fs (os s) !! (cwd (os s) ++ parts (global_logs (self s)))) as [[]|]. }
    assert (resolve (os s) report ≠ full) as Hne.
    { intros E. rewrite E in Hr. congruence. }
    assert (∀ f c p, resolve (set_fs f c) p = resolve c p) as Hres by done.
    unfold touch. fold full. rewrite Hf. unfold create. rewrite Hp. cbn [os self].
    unfold open_append. rewrite Hres. fold full. cbn [fs set_fs].
    rewrite lookup_insert_eq. cbn [os self].
    unfold read_text. rewrite Hres. cbn [fs set_fs].
    by rewrite lookup_insert_ne, Hr by done.
  - intros He Hf Hp. unfold add_to_full_log, full_log_key in *. msimpl. rewrite He.
    unfold touch. rewrite Hf. unfold create. rewrite Hp.
    eexists. by destruct s.
Qed.

(** X22: a report that cannot be read as text.  When the bytes of the
    report are not well-formed UTF-8, [read_text] raises
    [UnicodeDecodeError] out of [add_to_full_log]; by then the cumulative
    log has been opened, so it exists (empty, when it was missing) with
    the content it had, and nothing of the report has been appended. *)
Theorem add_to_full_log_undecodable report s data :
  fs (os s) !! resolve (os s) report = Some (File data) →
  utf8_valid data = false →
  is_dir (os s) (global_logs (self s)) = true →
  fs (os s) !! full_log_key s ≠ Some Dir →
  add_to_full_log report s
  = (Raise UnicodeDecodeError,
     mkSt (self s)
       (set_fs (<[full_log_key s := File (full_log_text s)]> (fs (os s))) (os s)),
     []).
Proof.
  intros Hr Hv Hd Hn. unfold full_log_text, full_log_key in *.
  unfold add_to_full_log. msimpl. unfold exists_. rewrite Hr.
  set (full := resolve (os s) (joinpath (global_logs (self s)) "full_execution.log"))
    in *.
  assert (∀ f c p, resolve (set_fs f c) p = resolve c p) as Hres by done.
  destruct (fs (os s) !! full) as [[|old]|] eqn:E; [done| |].
  - unfold touch. fold full. rewrite E. cbn [os self].
    unfold open_append. fold full. rewrite E. cbn [os self].
    unfold read_text, decode_text. rewrite Hr, Hv.
    rewrite insert_id by done. by destruct s as [o []].
  - assert (fs (os s) !! parent full = Some Dir) as Hp.
    { unfold full, parent. unfold resolve, joinpath. simpl.
      unfold is_dir, resolve in Hd.
      destruct (absolute (global_logs (self s))).
      - rewrite removelast_last.
        by destruct (fs (os s) !! parts (global_logs (self s))) as [[]|].
      - rewrite app_assoc, removelast_last.
        by destruct (fs (os s) !! (cwd (os s) ++ parts (global_logs (self s)))) as [[]|]. }
    assert (resolve (os s) report ≠ full) as Hne.
    { intros Heq. rewrite Heq in Hr. congruence. }
    unfold touch. fold full. rewrite E. unfold create. rewrite Hp. cbn [os self].
    unfold open_append. rewrite Hres. fold full. cbn [fs set_fs].
    rewrite lookup_insert_eq. cbn [os self].
    unfold read_text, decode_text. rewrite Hres. cbn [fs set_fs].
    by rewrite lookup_insert_ne, Hr, Hv by done.
Qed.

(** ** Frames on the process *)

Definition os_frames {A} (R : relation World) (m : M A) : Prop :=
  ∀ s, R (os s) (os (state_of (m s))).

Section OsFrames.
Context (R : relation World) `{!PreOrder R}.

Lemma os_frames_ret {A} (a : A) : os_frames R (mret a).
Proof. intros s. reflexivity. Qed.

Lemma os_frames_raise {A} e : os_frames R (raise e : M A).
Proof. intros s. reflexivity. Qed.

Lemma os_frames_emit e : os_frames R (emit e).
Proof. intros s. reflexivity. Qed.

Lemma os_frames_of_result {A} (r : result A) : os_frames R (of_result r).
Proof. intros s. reflexivity. Qed.

Lemma os_frames_reads {A} (f : St → result A) : os_frames R (reads f).
Proof. intros s. reflexivity. Qed.

Lemma os_frames_get_self : os_frames R get_self.
Proof. intros s. reflexivity. Qed.

Lemma os_frames_modify_self f : os_frames R (modify_self f).
Proof. intros s. reflexivity. Qed.

Lemma os_frames_require_workspace : os_frames R require_workspace.
Proof.
  intros s. unfold require_workspace.
  destruct (workspace (self s)); [destruct (is_dir _ _)|]; reflexivity.
Qed.

Lemma os_frames_io {A} (m : IO A) : io_frames R m → os_frames R (io m).
Proof. intros H s. rewrite io_os. apply H. Qed.

Lemma os_frames_call_on_create f : io_frames R f → os_frames R (call_on_create f).
Proof.
  intros H s. unfold call_on_create, state_of. specialize (H (os s)).
  by destruct (f (os s)).
Qed.

Lemma os_frames_bind {A B} (m : M A) (k : A → M B) :
  os_frames R m → (∀ a, os_frames R (k a)) → os_frames R (m ≫= k).
Proof.
  intros Hm Hk s. specialize (Hm s).
  destruct (m s) as [[[a|e] s1] t1] eqn:E.
  - rewrite (bind_ok _ _ _ _ _ _ E). etrans; [exact Hm|]. apply Hk.
  - by rewrite (bind_raise _ _ _ _ _ _ E).
Qed.

Lemma os_frames_try_finally {A} (body : M A) fin :
  os_frames R body → os_frames R fin → os_frames R (try_finally body fin).
Proof.
  intros Hb Hf s. rewrite try_finally_state. etrans; [apply Hb | apply Hf].
Qed.
End OsFrames.

Create HintDb os_frames discriminated.
#[global] Hint Resolve os_frames_ret os_frames_raise os_frames_emit
  os_frames_of_result os_frames_reads os_frames_get_self os_frames_modify_self
  os_frames_require_workspace : os_frames.

Ltac os_steps :=
  repeat first
    [ match goal with |- ∀ _, _ => intro end
    | solve [eauto with os_frames typeclass_instances]
    | apply os_frames_bind
    | apply os_frames_try_finally
    | apply os_frames_io
    | apply os_frames_call_on_create
    | match goal with
      | |- os_frames _ (match ?x with _ => _ end) => destruct x
      end ].

#[global] Existing Instance env_same_preorder.

Lemma touch_env p : io_frames env_same (touch p).
Proof.
  intros w. unfold touch. destruct (fs w !! resolve w p); [done|apply create_env].
Qed.

Lemma open_append_env p : io_frames env_same (open_append p).
Proof.
  intros w. unfold open_append.
  destruct (fs w !! resolve w p) as [[]|]; [done..|apply create_env].
Qed.

Lemma read_text_env p : io_frames env_same (read_text p).
Proof. intros w. unfold read_text. by destruct (fs w !! resolve w p) as [[]|]. Qed.

Lemma write_append_env p t : io_frames env_same (write_append p t).
Proof. intros w. unfold write_append. by destruct (fs w !! resolve w p) as [[]|]. Qed.

Lemma mkdir_exist_ok_env p : io_frames env_same (mkdir_exist_ok p).
Proof.
  intros w. unfold mkdir_exist_ok.
  destruct (fs w !! resolve w p) as [[]|]; [done..|apply create_env].
Qed.

#[global] Hint Resolve touch_env open_append_env read_text_env write_append_env
  mkdir_exist_ok_env chdir_env : os_frames.

Lemma add_to_full_log_env report : os_frames env_same (add_to_full_log report).
Proof. unfold add_to_full_log. os_steps. Qed.

(** ** Collecting the logs of a test directory *)

(** What [collect_logs] does after its [yield]. *)
Definition collect_logs_teardown (base_path : path) : M unit :=
  let log_path := joinpath base_path "logs" in
  let artifact_path := joinpath base_path "artifacts" in
  io (delenv "TEST_ARTIFACT_PATH");;
  io (delenv "ARTIFACT_PATH");;
  io (delenv "LOG_PATH");;
  add_to_full_log (joinpath log_path "test_output.log");;
  logs ← la_collect log_path;
  la_upload_logs logs;;
  artifacts ← la_collect artifact_path;
  la_upload_artifacts artifacts.

(** The process as [collect_logs] hands it to the block: the two
    directories exist and the three variables name them. *)
Definition prepared (base_path : path) (s : St) : St :=
  mkSt (self s)
    (set_environ
       (<["LOG_PATH" := path_str (joinpath base_path "logs")]>
          (<["ARTIFACT_PATH" := path_str (joinpath base_path "artifacts")]>
             (<["TEST_ARTIFACT_PATH" := path_str (joinpath base_path "artifacts")]>
                (environ (os s)))))
       (set_fs (<[parts base_path ++ ["artifacts"] := Dir]>
                  (<[parts base_path ++ ["logs"] := Dir]> (fs (os s)))) (os s))).

(** The directory can take [logs] and [artifacts]. *)
Definition collectable (base_path : path) (s : St) : Prop :=
  absolute base_path = true ∧
  fs (os s) !! parts base_path = Some Dir ∧
  no_file (os s) (parts base_path ++ ["logs"]) ∧
  no_file (os s) (parts base_path ++ ["artifacts"]).

Lemma bind_ok_silent {A B} (m : M A) (k : A → M B) s a s1 :
  m s = (Ok a, s1, []) → (m ≫= k) s = k a s1.
Proof.
  intros E. unfold mbind, M_bind, bind. rewrite E.
  by destruct (k a s1) as [[r s2] t2].
Qed.

Lemma io_run {A} (m : IO A) s r w :
  m (os s) = (r, w) → io m s = (r, mkSt (self s) w, []).
Proof. intros E. unfold io. by rewrite E. Qed.

Lemma collect_logs_run base block s :
  collectable base s →
  collect_logs base block s
  = match block (prepared base s) with
    | (Ok _, sb, tb) =>
        (result_of (collect_logs_teardown base sb),
         state_of (collect_logs_teardown base sb),
         tb ++ trace_of (collect_logs_teardown base sb))
    | (Raise e, sb, tb) => (Raise e, sb, tb)
    end.
Proof.
  intros (Ha & Hb & Hl & Har). destruct base as [a base]. simpl in *. subst a.
  unfold collect_logs. cbv zeta.
  erewrite bind_ok_silent.
  2:{ apply io_run. apply (mkdir_exist_ok_child base "logs" (os s) Hb Hl). }
  erewrite bind_ok_silent.
  2:{ apply io_run. simpl. apply (mkdir_exist_ok_child base "artifacts").
      - simpl. rewrite lookup_insert_ne; [done|apply child_ne_parent].
      - intros data. simpl. rewrite lookup_insert_ne; [apply Har|].
        intros H. by apply app_inv_head in H. }
  erewrite bind_ok_silent; [|apply io_run; reflexivity].
  erewrite bind_ok_silent; [|apply io_run; reflexivity].
  erewrite bind_ok_silent; [|apply io_run; reflexivity].
  simpl. fold (prepared (Path true base) s).
  unfold mbind at 1, M_bind at 1, bind.
  destruct (block _) as [[[[]|e] sb] tb]; [|done].
  fold (collect_logs_teardown (Path true base)).
  by destruct (collect_logs_teardown _ sb) as [[r s'] t'].
Qed.

(** The collaborator calls at the end of a visit, read off its answers. *)
Definition visit_uploads_outcome (la : LogArea) (log_path artifact_path : path)
    (w : World) : result unit * list event :=
  match collect la log_path w with
  | Raise e => (Raise e, [EvCollect log_path])
  | Ok logs =>
    match upload_logs la logs w with
    | Raise e => (Raise e, [EvCollect log_path; EvUploadLogs logs])
    | Ok _ =>
      match collect la artifact_path w with
      | Raise e =>
          (Raise e, [EvCollect log_path; EvUploadLogs logs; EvCollect artifact_path])
      | Ok artifacts =>
          (upload_artifacts la artifacts w,
           [EvCollect log_path; EvUploadLogs logs;
            EvCollect artifact_path; EvUploadArtifacts artifacts])
      end
    end
  end.

(** The environment once the three variables are deleted. *)
Definition cleared (env : gmap string string) : gmap string string :=
  delete "LOG_PATH" (delete "ARTIFACT_PATH" (delete "TEST_ARTIFACT_PATH" env)).

Lemma collect_logs_teardown_run base sb :
  is_Some (environ (os sb) !! "TEST_ARTIFACT_PATH") →
  is_Some (environ (os sb) !! "ARTIFACT_PATH") →
  is_Some (environ (os sb) !! "LOG_PATH") →
  collect_logs_teardown base sb
  = match add_to_full_log (joinpath (joinpath base "logs") "test_output.log")
            (mkSt (self sb) (set_environ (cleared (environ (os sb))) (os sb))) with
    | (Ok _, s2, t2) =>
        ((visit_uploads_outcome (log_area (self s2)) (joinpath base "logs")
            (joinpath base "artifacts") (os s2)).1,
         s2,
         t2 ++ (visit_uploads_outcome (log_area (self s2)) (joinpath base "logs")
                  (joinpath base "artifacts") (os s2)).2)
    | (Raise e, s2, t2) => (Raise e, s2, t2)
    end.
Proof.
  intros [v1 H1] [v2 H2] [v3 H3]. unfold collect_logs_teardown. cbv zeta.
  erewrite bind_ok_silent; [|apply io_run; unfold delenv; by rewrite H1].
  erewrite bind_ok_silent.
  2:{ apply io_run. unfold delenv. simpl. by rewrite lookup_delete_ne, H2. }
  erewrite bind_ok_silent.
  2:{ apply io_run. unfold delenv. simpl. by rewrite !lookup_delete_ne, H3. }
  simpl. fold (cleared (environ (os sb))).
  unfold mbind at 1, M_bind at 1, bind.
  destruct (add_to_full_log _ _) as [[[[]|e] s2] t2]; [|done].
  unfold visit_uploads_outcome, la_collect, la_upload_logs, la_upload_artifacts.
  msimpl.
  destruct (collect _ _ _) as [logs|]; [|done]. simpl.
  destruct (upload_logs _ logs _) as [[]|]; [|done]. simpl.
  destruct (collect _ _ _) as [artifacts|]; [|done]. simpl.
  by destruct (upload_artifacts _ artifacts _).
Qed.

Lemma add_to_full_log_emits φ report : emits φ (add_to_full_log report).
Proof. unfold add_to_full_log. emits_steps. Qed.

(** X12: [collect_logs] hands the block a prepared process.  For a
    directory that can take them, [logs] and [artifacts] exist inside it
    (created when missing), [LOG_PATH], [ARTIFACT_PATH] and
    [TEST_ARTIFACT_PATH] name them, nothing else has changed, and the block
    runs there, followed, when it returns, by what comes after the
    [yield]. *)
Theorem collect_logs_prepares base block s :
  collectable base s →
  collect_logs base block s
  = (block;; collect_logs_teardown base) (prepared base s).
Proof.
  intros Hc. rewrite (collect_logs_run base block s Hc).
  unfold mbind, M_bind, bind.
  destruct (block (prepared base s)) as [[[[]|e] sb] tb]; [|done].
  by destruct (collect_logs_teardown base sb) as [[r s'] t'].
Qed.

(** X13: a block that raises ends [collect_logs] on the spot.  The call
    raises the exception of the block and leaves the object, the process
    and the trace exactly as the block left them: nothing that follows the
    [yield] runs, so the three variables are still set unless the block
    itself removed them. *)
Theorem collect_logs_block_raises base block s e sb tb :
  collectable base s →
  block (prepared base s) = (Raise e, sb, tb) →
  collect_logs base block s = (Raise e, sb, tb) ∧
  (environ (os sb) = environ (os (prepared base s)) →
   environ (os (state_of (collect_logs base block s))) !! "LOG_PATH"
   = Some (path_str (joinpath base "logs")) ∧
   environ (os (state_of (collect_logs base block s))) !! "ARTIFACT_PATH"
   = Some (path_str (joinpath base "artifacts")) ∧
   environ (os (state_of (collect_logs base block s))) !! "TEST_ARTIFACT_PATH"
   = Some (path_str (joinpath base "artifacts"))).
Proof.
  intros Hc Hb. rewrite (collect_logs_run base block s Hc), Hb.
  split; [done|]. unfold state_of. simpl. intros ->. simpl.
  split; [apply lookup_insert_eq|]. split.
  - rewrite lookup_insert_ne by done. apply lookup_insert_eq.
  - rewrite lookup_insert_ne by done. rewrite lookup_insert_ne by done.
    apply lookup_insert_eq.
Qed.

(** X14: a block that returns with the three variables still set gets
    them removed.  Whatever happens next (the report may be unreadable,
    the collaborator may refuse), after [collect_logs] the environment is
    the one the block left without [LOG_PATH], [ARTIFACT_PATH] and
    [TEST_ARTIFACT_PATH], the object is as the block left it, and the
    trace starts with the trace of the block. *)
Theorem collect_logs_clears_environment base block s sb tb :
  collectable base s →
  block (prepared base s) = (Ok tt, sb, tb) →
  is_Some (environ (os sb) !! "TEST_ARTIFACT_PATH") →
  is_Some (environ (os sb) !! "ARTIFACT_PATH") →
  is_Some (environ (os sb) !! "LOG_PATH") →
  environ (os (state_of (collect_logs base block s))) = cleared (environ (os sb)) ∧
  self (state_of (collect_logs base block s)) = self sb ∧
  ∃ t, trace_of (collect_logs base block s) = tb ++ t.
Proof.
  intros Hc Hb H1 H2 H3. rewrite (collect_logs_run base block s Hc), Hb.
  rewrite (collect_logs_teardown_run base sb H1 H2 H3).
  set (s1 := mkSt (self sb) _).
  pose proof (add_to_full_log_env
    (joinpath (joinpath base "logs") "test_output.log") s1) as [He _].
  pose proof (add_to_full_log_self
    (joinpath (joinpath base "logs") "test_output.log") s1) as Hs.
  unfold state_of, trace_of, result_of in *.
  destruct (add_to_full_log _ s1) as [[[[]|e] s2] t2]; simpl in *;
    (split; [done|split; [done|eauto]]).
Qed.

(** X15: a block that unset [TEST_ARTIFACT_PATH] makes the first [del]
    after the [yield] raise [KeyError]; the other two variables stay, the
    report is not appended and nothing is uploaded. *)
Theorem collect_logs_unset_variable base block s sb tb :
  collectable base s →
  block (prepared base s) = (Ok tt, sb, tb) →
  environ (os sb) !! "TEST_ARTIFACT_PATH" = None →
  collect_logs base block s = (Raise (KeyError "TEST_ARTIFACT_PATH"), sb, tb).
Proof.
  intros Hc Hb Hn. rewrite (collect_logs_run base block s Hc), Hb.
  assert (collect_logs_teardown base sb
          = (Raise (KeyError "TEST_ARTIFACT_PATH"), sb, [])) as ->.
  { unfold collect_logs_teardown. cbv zeta. apply bind_raise.
    unfold io, delenv. rewrite Hn. by destruct sb. }
  unfold result_of, state_of, trace_of. simpl. by rewrite app_nil_r.
Qed.

(** X16: the uploads of a visit stop at the first refusal, like those of
    [__exit__].  After a block that returned, when the logs of the test
    directory are offered to the collaborator and it refuses them, its
    exception leaves [collect_logs] and the artifacts of the directory are
    neither collected nor uploaded. *)
Theorem collect_logs_uploads_in_sequence base block s sb tb t logs e :
  collectable base s →
  block (prepared base s) = (Ok tt, sb, tb) →
  is_Some (environ (os sb) !! "TEST_ARTIFACT_PATH") →
  is_Some (environ (os sb) !! "ARTIFACT_PATH") →
  is_Some (environ (os sb) !! "LOG_PATH") →
  trace_of (collect_logs base block s) = tb ++ t →
  EvUploadLogs logs ∈ t →
  upload_logs (log_area (self sb)) logs (os (state_of (collect_logs base block s)))
  = Raise e →
  result_of (collect_logs base block s) = Raise e ∧
  t = [EvCollect (joinpath base "logs"); EvUploadLogs logs].
Proof.
  intros Hc Hb H1 H2 H3. rewrite (collect_logs_run base block s Hc), Hb.
  rewrite (collect_logs_teardown_run base sb H1 H2 H3).
  set (s1 := mkSt (self sb) _).
  pose proof (emits_nothing (add_to_full_log
    (joinpath (joinpath base "logs") "test_output.log")) s1
    (add_to_full_log_emits _ _)) as Ht.
  pose proof (add_to_full_log_self
    (joinpath (joinpath base "logs") "test_output.log") s1) as Hs.
  unfold state_of, trace_of, result_of in *.
  destruct (add_to_full_log _ s1) as [[[[]|e2] s2] t2]; simpl in *; subst t2.
  2:{ intros Happ%app_inv_head. subst t. intros Hin. by apply elem_of_nil in Hin. }
  rewrite <- Hs. simpl. unfold visit_uploads_outcome.
  destruct (collect _ _ _) as [logs'|]; simpl;
    [destruct (upload_logs _ logs' _) as [[]|e3] eqn:E3; simpl;
     [destruct (collect _ _ _) as [artifacts|]; simpl|]|].
  all: intros Happ%app_inv_head; subst t; intros Hin; trace_inv.
  all: try congruence.
  split; [congruence|done].
Qed.

(** ** Coming back to a test directory *)

(** An identifier is bound only to a directory that lies under [top_dir]:
    the logger is given its relative path before the binding is made. *)
Lemma test_directory_binds_below i f b s d :
  identifiers (self s) !! i = None →
  identifiers (self (state_of (test_directory i f b s))) !! i = Some d →
  is_ok (relative_to d (top_dir (self s))) = true.
Proof.
  intros Hi. destruct (test_directory_cases i f b s) as [->|(ws & _ & _ & -> & _)].
  { unfold state_of. simpl. by rewrite Hi. }
  unfold visit. msimpl. rewrite Hi.
  destruct (mkdtemp ws (os s)) as [[d0|e] w1]; simpl; [|by rewrite Hi].
  destruct (relative_to d0 (top_dir (self s))) as [q|] eqn:Er; simpl;
    [|by rewrite Hi].
  destruct (chdir d0 w1) as [[[]|e] w2]; simpl.
  2:{ rewrite lookup_insert_eq. intros [= <-]. by rewrite Er. }
  destruct f as [f|]; simpl.
  - unfold call_on_create. simpl.
    destruct (f w2) as [[[]|e] w3]; simpl.
    2:{ rewrite lookup_insert_eq. intros [= <-]. by rewrite Er. }
    rewrite lookup_insert_eq.
    match goal with |- context [collect_logs d0 (yield_to b d0) ?s'] =>
      destruct (collect_logs_yield b d0 s') as [Hs _];
      destruct (collect_logs d0 (yield_to b d0) s') as [[r s2] t2] end.
    unfold state_of in *. simpl in *. rewrite Hs. simpl.
    rewrite lookup_insert_eq. intros [= <-]. by rewrite Er.
  - rewrite lookup_insert_eq.
    match goal with |- context [collect_logs d0 (yield_to b d0) ?s'] =>
      destruct (collect_logs_yield b d0 s') as [Hs _];
      destruct (collect_logs d0 (yield_to b d0) s') as [[r s2] t2] end.
    unfold state_of in *. simpl in *. rewrite Hs. simpl.
    rewrite lookup_insert_eq. intros [= <-]. by rewrite Er.
Qed.

(** A call for an identifier that is bound creates nothing and calls no
    [on_create]: past the guard it moves into the directory and runs the
    block under [collect_logs] there. *)
Lemma test_directory_revisit i f b s ws d :
  workspace (self s) = Some ws →
  is_dir (os s) ws = true →
  identifiers (self s) !! i = Some d →
  is_ok (relative_to d (top_dir (self s))) = true →
  is_dir (os s) d = true →
  test_directory i f b s
  = try_finally (collect_logs d (yield_to b d)) leave
      (mkSt (self s) (set_cwd (resolve (os s) d) (os s))).
Proof.
  intros Hw Hd Hi Hr Hdd. unfold test_directory.
  rewrite (bind_ok_silent _ _ _ _ _ (require_workspace_ok s ws Hw Hd)).
  assert (visit ws i f b s
          = collect_logs d (yield_to b d)
              (mkSt (self s) (set_cwd (resolve (os s) d) (os s)))) as Hv.
  { unfold visit. erewrite bind_ok_silent; [|reflexivity]. rewrite Hi.
    unfold logger_info_relative.
    destruct (relative_to d (top_dir (self s))) as [q|]; [|done].
    assert (chdir d (os s) = (Ok tt, set_cwd (resolve (os s) d) (os s))) as Hc.
    { unfold chdir. unfold is_dir in Hdd.
      by destruct (fs (os s) !! resolve (os s) d) as [[]|]. }
    erewrite bind_ok_silent.
    2:{ erewrite bind_ok_silent.
        2:{ erewrite bind_ok_silent; [|reflexivity]. reflexivity. }
        erewrite bind_ok_silent.
        2:{ erewrite bind_ok_silent; [|reflexivity]. reflexivity. }
        apply io_run. exact Hc. }
    erewrite bind_ok_silent; [|reflexivity]. simpl. by rewrite Hi. }
  unfold try_finally. by rewrite Hv.
Qed.

(** ... and where the directory can take [logs] and [artifacts], the
    block is handed the directory, in a process prepared for it. *)
Lemma test_directory_revisit_prepared i f b s ws d :
  workspace (self s) = Some ws →
  is_dir (os s) ws = true →
  identifiers (self s) !! i = Some d →
  is_ok (relative_to d (top_dir (self s))) = true →
  is_dir (os s) d = true →
  collectable d (mkSt (self s) (set_cwd (resolve (os s) d) (os s))) →
  test_directory i f b s
  = try_finally (yield_to b d;; collect_logs_teardown d) leave
      (prepared d (mkSt (self s) (set_cwd (resolve (os s) d) (os s)))) ∧
  ∃ t, trace_of (test_directory i f b s) = EvYield d :: t.
Proof.
  intros Hw Hd Hi Hr Hdd Hc.
  rewrite (test_directory_revisit i f b s ws d) by done.
  set (s2 := mkSt (self s) _) in *.
  assert (collect_logs d (yield_to b d) s2
          = (yield_to b d;; collect_logs_teardown d) (prepared d s2)) as E.
  { rewrite (collect_logs_run d _ s2 Hc). unfold mbind, M_bind, bind.
    destruct (yield_to b d (prepared d s2)) as [[[[]|e] sb] tb]; [|done].
    by destruct (collect_logs_teardown d sb) as [[r s3] t3]. }
  assert (try_finally (collect_logs d (yield_to b d)) leave s2
          = try_finally (yield_to b d;; collect_logs_teardown d) leave (prepared d s2))
    as -> by (unfold try_finally; by rewrite E).
  split; [done|]. rewrite try_finally_trace.
  assert (∃ t, trace_of ((yield_to b d;; collect_logs_teardown d) (prepared d s2))
               = EvYield d :: t) as [t ->]; [|by eexists].
  destruct (b d (os (prepared d s2))) as [r w3] eqn:Eb.
  assert (yield_to b d (prepared d s2)
          = (r, mkSt (self (prepared d s2)) w3, [EvYield d])) as Ey.
  { unfold yield_to, emit, io, mbind, M_bind, bind. by rewrite Eb. }
  unfold mbind, M_bind, bind. rewrite Ey. destruct r as [[]|e]; [|by eexists].
  destruct (collect_logs_teardown d _) as [[r s4] t4]. by eexists.
Qed.

Section Revisits.

Variable gztar : list (list string * node) → string.

(** C9: when [on_create] raises on the first visit of an identifier, the
    identifier is bound all the same: the binding was recorded before the
    callback ran and nothing undoes it.  From then on, whatever the caller
    does, the identifier stays bound to that directory, a later
    [test_directory] call for it never calls [on_create] again, and the
    only directory such a call hands to its block is that one.  And it
    does go there: as long as the workspace and the directory are still in
    place, the later call moves into that very directory and runs the
    block under [collect_logs] there, creating nothing; where the
    directory can take [logs] and [artifacts], the first thing the call
    does after preparing the process is to hand the directory to the
    block. *)
Theorem on_create_failure_keeps_binding s i f b e :
  identifiers (self s) !! i = None →
  EvOnCreate (Raise e) ∈ trace_of (test_directory i (Some f) b s) →
  ∃ d,
    identifiers (self (state_of (test_directory i (Some f) b s))) !! i = Some d ∧
    trace_of (test_directory i (Some f) b s) = [EvOnCreate (Raise e)] ∧
    ∀ later f' b',
      let s' := (run gztar later (state_of (test_directory i (Some f) b s))).1 in
      identifiers (self s') !! i = Some d ∧
      on_creates (trace_of (test_directory i f' b' s')) = 0 ∧
      (∀ d', EvYield d' ∈ trace_of (test_directory i f' b' s') → d' = d) ∧
      identifiers (self (state_of (test_directory i f' b' s'))) !! i = Some d ∧
      (∀ ws',
         workspace (self s') = Some ws' →
         is_dir (os s') ws' = true →
         is_dir (os s') d = true →
         let s'' := mkSt (self s') (set_cwd (resolve (os s') d) (os s')) in
         test_directory i f' b' s'
         = try_finally (collect_logs d (yield_to b' d)) leave s'' ∧
         (collectable d s'' →
          test_directory i f' b' s'
          = try_finally (yield_to b' d;; collect_logs_teardown d) leave (prepared d s'') ∧
          ∃ t, trace_of (test_directory i f' b' s') = EvYield d :: t)).
Proof.
  intros Hi Hc.
  destruct (test_directory_unbound i (Some f) b s Hi)
    as [[_ Ht]|(d & pre & rest & Hid & Ht & Hrest & Hpre & Hfull)].
  { rewrite Ht in Hc. by apply elem_of_nil in Hc. }
  rewrite Ht in Hc. pose proof (elem_of_on_create_inv _ _ _ _ Hrest Hpre Hc) as ->.
  destruct Hfull as [-> | Hfull]; [|by inversion Hfull].
  assert (identifiers (self (state_of (test_directory i (Some f) b s))) !! i = Some d)
    as Hd1 by (rewrite Hid; apply lookup_insert_eq).
  pose proof (test_directory_binds_below i (Some f) b s d Hi Hd1) as Hbelow.
  exists d. split; [done|]. split; [done|].
  intros later f' b' s'.
  assert (identifiers (self s') !! i = Some d) as Hs'.
  { by apply run_keeps_binding. }
  assert (top_dir (self s') = top_dir (self s)) as Htop.
  { unfold s'.
    destruct (run_stable gztar later (state_of (test_directory i (Some f) b s)))
      as [(_ & -> & _) _].
    by destruct (test_directory_layout i (Some f) b s) as [(_ & -> & _) _]. }
  destruct (test_directory_bound i f' b' s' d Hs') as [Heq Htr].
  split; [done|]. split; [by apply (only_yields_on_creates d)|].
  split; [intros d'; by apply only_yields_elem|]. split; [by rewrite Heq|].
  intros ws' Hw Hwd Hdd s''. rewrite <- Htop in Hbelow. split.
  - by apply (test_directory_revisit i f' b' s' ws' d).
  - intros Hcol. by apply (test_directory_revisit_prepared i f' b' s' ws' d).
Qed.

End Revisits.

(** ** What a run keeps *)

(** Every directory is still a directory. *)
Definition dirs_stay (w w' : World) : Prop :=
  ∀ k, fs w !! k = Some Dir → fs w' !! k = Some Dir.

#[global] Instance dirs_stay_preorder : PreOrder dirs_stay.
Proof. split; [by intros w k|]. intros w1 w2 w3 H1 H2 k Hk. by apply H2, H1. Qed.

Lemma dirs_kept_stay {A} (m : IO A) : io_frames dirs_kept m → io_frames dirs_stay m.
Proof. intros H w. by destruct (H w). Qed.

Lemma same_fs_stay {A} (m : IO A) : (∀ w, fs (m w).2 = fs w) → io_frames dirs_stay m.
Proof. intros H w k. by rewrite H. Qed.

Lemma chdir_stay p : io_frames dirs_stay (chdir p).
Proof. apply same_fs_stay, chdir_fs. Qed.

Lemma setenv_stay k v : io_frames dirs_stay (setenv k v).
Proof. by apply same_fs_stay. Qed.

Lemma delenv_stay k : io_frames dirs_stay (delenv k).
Proof. apply same_fs_stay. intros w. unfold delenv. by destruct (environ w !! k). Qed.

Lemma read_text_stay p : io_frames dirs_stay (read_text p).
Proof.
  apply same_fs_stay. intros w. unfold read_text.
  by destruct (fs w !! resolve w p) as [[]|].
Qed.

Lemma create_stay k n w : fs w !! k = None → dirs_stay w (create k n w).2.
Proof. intros H. by destruct (create_kept k n w H). Qed.

Lemma mkdir_exist_ok_stay p : io_frames dirs_stay (mkdir_exist_ok p).
Proof. apply dirs_kept_stay, mkdir_exist_ok_dirs. Qed.

Lemma touch_stay p : io_frames dirs_stay (touch p).
Proof.
  intros w. unfold touch. destruct (fs w !! resolve w p) eqn:E; [reflexivity|].
  by apply create_stay.
Qed.

Lemma open_append_stay p : io_frames dirs_stay (open_append p).
Proof.
  intros w. unfold open_append.
  destruct (fs w !! resolve w p) as [[]|] eqn:E; [reflexivity..|].
  by apply create_stay.
Qed.

Lemma write_append_stay p t : io_frames dirs_stay (write_append p t).
Proof.
  intros w. unfold write_append.
  destruct (fs w !! resolve w p) as [[]|] eqn:E; [reflexivity| |reflexivity].
  intros k Hk. simpl. rewrite lookup_insert_ne; [done|]. intros <-. congruence.
Qed.

(** [mkdtemp] hands out a directory that was not there before. *)
Lemma mkdtemp_from_fresh d names w p w' :
  mkdtemp_from d names w = (Ok p, w') →
  absolute p = absolute d ∧ fs w !! resolve w p = None ∧
  fs w' !! resolve w p = Some Dir ∧ dirs_stay w w' ∧ ∃ n, p = joinpath d n.
Proof.
  revert w. induction names as [|n rest IH]; intros w; simpl; [done|].
  destruct (fs w !! resolve w (joinpath d ("tmp" +:+ n))) eqn:E; [apply IH|].
  unfold create. simpl.
  destruct (fs w !! parent (resolve w (joinpath d ("tmp" +:+ n)))) as [[]|]; [|done..].
  intros [= <- <-]. simpl. split; [done|]. split; [done|].
  split; [apply lookup_insert_eq|]. split; [|by eexists].
  intros k Hk. simpl. rewrite lookup_insert_ne; [done|]. intros <-. congruence.
Qed.

Lemma mkdtemp_stay p : io_frames dirs_stay (mkdtemp p).
Proof.
  intros w. unfold mkdtemp. generalize (tmp_names w) at 1. intros names.
  revert w. induction names as [|n rest IH]; intros w; simpl; [by intros k|].
  destruct (fs w !! resolve w (joinpath p ("tmp" +:+ n))) eqn:E; [apply IH|].
  pose proof (create_stay (resolve w (joinpath p ("tmp" +:+ n))) Dir
                (set_tmp_names rest w) E) as Hc.
  by destruct (create _ Dir (set_tmp_names rest w)) as [[[]|e] w1].
Qed.

#[global] Hint Resolve chdir_stay setenv_stay delenv_stay read_text_stay
  mkdir_exist_ok_stay touch_stay open_append_stay write_append_stay mkdtemp_stay
  : os_frames.

(** Code of the caller that removes no directory. *)
Definition keeps_dirs (f : callback) : Prop := io_frames dirs_stay f.

Lemma add_to_full_log_stay report : os_frames dirs_stay (add_to_full_log report).
Proof. unfold add_to_full_log. os_steps. Qed.

Lemma collect_logs_stay base block :
  os_frames dirs_stay block → os_frames dirs_stay (collect_logs base block).
Proof.
  intros Hb. pose proof add_to_full_log_stay as Ha.
  unfold collect_logs, la_collect, la_upload_logs, la_upload_artifacts. os_steps.
Qed.

Lemma yield_to_stay b d : keeps_dirs (b d) → os_frames dirs_stay (yield_to b d).
Proof. intros H. unfold yield_to. os_steps. Qed.

Lemma leave_fs s : fs (os (state_of (leave s))) = fs (os s).
Proof.
  unfold leave. msimpl. destruct (workspace (self s)) as [ws|]; [|done].
  destruct (relative_to _ _); [|done]. simpl.
  pose proof (chdir_fs ws (os s)). by destruct (chdir ws (os s)) as [[] w].
Qed.

Lemma visit_stay ws i f b :
  (∀ g, f = Some g → keeps_dirs g) → (∀ d, keeps_dirs (b d)) →
  os_frames dirs_stay (visit ws i f b).
Proof.
  intros Hf Hb. unfold visit, logger_info_relative.
  assert (∀ d, os_frames dirs_stay (collect_logs d (yield_to b d))) as Hc.
  { intros d. apply collect_logs_stay, yield_to_stay, Hb. }
  os_steps. by apply Hf.
Qed.

(** A first visit binds a directory that did not exist before the call
    and exists after it. *)
Lemma visit_unbound_fresh ws i f b s :
  (∀ g, f = Some g → keeps_dirs g) → (∀ d, keeps_dirs (b d)) →
  absolute (top_dir (self s)) = true →
  identifiers (self s) !! i = None →
  self (state_of (visit ws i f b s)) = self s ∨
  (∃ d,
      identifiers (self (state_of (visit ws i f b s)))
      = <[i := d]> (identifiers (self s)) ∧
      absolute d = true ∧
      fs (os s) !! parts d = None ∧
      fs (os (state_of (visit ws i f b s))) !! parts d = Some Dir).
Proof.
  intros Hf Hb Htop Hi. unfold visit. msimpl. rewrite Hi.
  destruct (mkdtemp ws (os s)) as [[d|e] w1] eqn:Em; [|by left]. simpl.
  apply mkdtemp_from_fresh in Em as (_ & Hfresh & Hd1 & _ & _).
  destruct (relative_to d (top_dir (self s))) as [q|] eqn:Er; [|by left]. simpl.
  apply relative_to_ok in Er as [Ha _]. rewrite Htop in Ha.
  unfold resolve in Hfresh, Hd1. rewrite Ha in Hfresh, Hd1.
  right. exists d. split; [|split; [done|split; [done|]]].
  - destruct (chdir d w1) as [[[]|e] w2]; simpl; [|done].
    destruct f as [f|]; simpl.
    + unfold call_on_create. simpl.
      destruct (f w2) as [[[]|e] w3]; simpl; [|done].
      rewrite lookup_insert_eq.
      match goal with |- context [collect_logs d (yield_to b d) ?s'] =>
        destruct (collect_logs_yield b d s') as [Hs Ht];
        destruct (collect_logs d (yield_to b d) s') as [[r s2] t2] end.
      unfold state_of in *. simpl in *. by rewrite Hs.
    + rewrite lookup_insert_eq.
      match goal with |- context [collect_logs d (yield_to b d) ?s'] =>
        destruct (collect_logs_yield b d s') as [Hs Ht];
        destruct (collect_logs d (yield_to b d) s') as [[r s2] t2] end.
      unfold state_of in *. simpl in *. by rewrite Hs.
  - pose proof (chdir_fs d w1) as Hc.
    destruct (chdir d w1) as [[[]|e] w2]; simpl in *; [|by rewrite Hc].
    assert (fs w2 !! parts d = Some Dir) as Hd2 by (by rewrite Hc).
    destruct f as [f|]; simpl.
    + unfold call_on_create. simpl.
      pose proof (Hf f eq_refl w2 _ Hd2) as Hd3.
      destruct (f w2) as [[[]|e] w3]; simpl in *; [|done].
      rewrite lookup_insert_eq.
      match goal with |- context [collect_logs d (yield_to b d) ?s'] =>
        pose proof (collect_logs_stay d _ (yield_to_stay b d (Hb d)) s' _ Hd3) as Hd4;
        destruct (collect_logs d (yield_to b d) s') as [[r s2] t2] end.
      done.
    + rewrite lookup_insert_eq.
      match goal with |- context [collect_logs d (yield_to b d) ?s'] =>
        pose proof (collect_logs_stay d _ (yield_to_stay b d (Hb d)) s' _ Hd2) as Hd4;
        destruct (collect_logs d (yield_to b d) s') as [[r s2] t2] end.
      done.
Qed.

Lemma test_directory_os i f b s ws :
  workspace (self s) = Some ws → is_dir (os s) ws = true →
  fs (os (state_of (test_directory i f b s)))
  = fs (os (state_of (visit ws i f b s))).
Proof.
  intros Hw Hd. unfold test_directory.
  rewrite (bind_ok_silent _ _ _ _ _ (require_workspace_ok s ws Hw Hd)).
  by rewrite try_finally_state, leave_fs.
Qed.

Section Invariants.

Variable gztar : list (list string * node) → string.

(** X17: the layout is fixed at construction.  Through every sequence of
    method calls and caller code, [top_dir] is the directory the process
    stood in when the object was constructed, the global directories are
    [top_dir/logs] and [top_dir/artifacts], and the collaborator is the
    one the object was given. *)
Theorem run_keeps_layout la w0 cs :
  top_dir (self (run gztar cs (init la w0)).1) = Path true (cwd w0) ∧
  global_logs (self (run gztar cs (init la w0)).1)
  = joinpath (top_dir (self (run gztar cs (init la w0)).1)) "logs" ∧
  global_artifacts (self (run gztar cs (init la w0)).1)
  = joinpath (top_dir (self (run gztar cs (init la w0)).1)) "artifacts" ∧
  log_area (self (run gztar cs (init la w0)).1) = la.
Proof.
  destruct (run_stable gztar cs (init la w0)) as [(Hla & Ht & Hl & Ha) _].
  rewrite Hla, Ht, Hl, Ha. by repeat split.
Qed.

Lemma make_archive_stay bn rd bd : io_frames dirs_stay (make_archive gztar bn rd bd).
Proof.
  unfold make_archive.
  repeat (apply io_frames_bind; [apply _| |intros ?]); try by intros w k.
  - apply chdir_stay.
  - apply io_frames_finally; [apply _| |apply chdir_stay].
    apply dirs_kept_stay, make_tarball_kept.
Qed.

Lemma compress_stay : os_frames dirs_stay (compress gztar).
Proof.
  pose proof make_archive_stay as Hm. unfold compress.
  os_steps; by intros w k.
Qed.

Lemma enter_stay p : os_frames dirs_stay (enter p).
Proof. unfold enter, logger_info_relative. os_steps. Qed.

Lemma exit_stay : os_frames dirs_stay (exit_ gztar).
Proof.
  pose proof compress_stay as Hc.
  unfold exit_, la_collect, la_upload_logs, la_upload_artifacts. os_steps.
Qed.

(** A method call whose caller code removes no directory. *)
Definition polite (c : method) : Prop :=
  match c with
  | TestDirectory _ f b => (∀ g, f = Some g → keeps_dirs g) ∧ (∀ d, keeps_dirs (b d))
  | Caller f => keeps_dirs f
  | _ => True
  end.

(** Every bound directory exists, and no two identifiers share one. *)
Definition bindings_sound (s : St) : Prop :=
  (∀ i d, identifiers (self s) !! i = Some d →
          absolute d = true ∧ fs (os s) !! parts d = Some Dir) ∧
  (∀ i j d, identifiers (self s) !! i = Some d →
            identifiers (self s) !! j = Some d → i = j).

Lemma bindings_sound_frame s s' :
  bindings_sound s → identifiers (self s') = identifiers (self s) →
  dirs_stay (os s) (os s') → bindings_sound s'.
Proof.
  intros [He Hi] Hid Hd. split.
  - intros i d H. rewrite Hid in H. destruct (He i d H) as [? ?]. split; [done|].
    by apply Hd.
  - intros i j d. rewrite Hid. apply Hi.
Qed.

Lemma test_directory_stay i f b :
  polite (TestDirectory i f b) → os_frames dirs_stay (test_directory i f b).
Proof.
  intros [Hf Hb]. pose proof (visit_stay) as Hv. unfold test_directory.
  apply os_frames_bind; [apply _|apply os_frames_require_workspace; apply _|].
  intros ws. apply os_frames_try_finally; [apply _|by apply Hv|].
  intros s k Hk. by rewrite leave_fs.
Qed.

Lemma test_directory_sound i f b s :
  polite (TestDirectory i f b) → absolute (top_dir (self s)) = true →
  bindings_sound s →
  bindings_sound (state_of (test_directory i f b s)).
Proof.
  intros Hp Htop Hs. pose proof (test_directory_stay i f b Hp s) as Hd.
  destruct (identifiers (self s) !! i) as [d0|] eqn:Hi.
  - destruct (test_directory_bound i f b s d0 Hi) as [Heq _].
    apply (bindings_sound_frame s); [done|by rewrite Heq|done].
  - destruct (test_directory_cases i f b s) as [->|(ws & Hw & Hwd & Hself & _)];
      [done|].
    destruct Hp as [Hf Hb].
    destruct (visit_unbound_fresh ws i f b s Hf Hb Htop Hi)
      as [Heq|(d & Hid & Ha & Hfresh & Hex)].
    + apply (bindings_sound_frame s); [done| |done]. by rewrite Hself, Heq.
    + rewrite <- (test_directory_os i f b s ws Hw Hwd) in Hex.
      destruct Hs as [He Hinj]. split.
      * intros j d'. rewrite Hself, Hid. intros [[<- <-]|[Hne Hj]]%lookup_insert_Some.
        -- done.
        -- destruct (He j d' Hj) as [? ?]. split; [done|]. by apply Hd.
      * intros j1 j2 d'. rewrite Hself, Hid. intros H1 H2.
        apply lookup_insert_Some in H1. apply lookup_insert_Some in H2.
        destruct H1 as [[E1 D1]|[Hne1 Hj1]], H2 as [[E2 D2]|[Hne2 Hj2]].
        -- congruence.
        -- subst d'. destruct (He j2 d Hj2) as [_ ?]. congruence.
        -- subst d'. destruct (He j1 d Hj1) as [_ ?]. congruence.
        -- by apply (Hinj j1 j2 d').
Qed.

Lemma run_method_sound c s :
  polite c → absolute (top_dir (self s)) = true → bindings_sound s →
  bindings_sound (state_of (run_method gztar c s)).
Proof.
  intros Hp Htop Hs. destruct c as [p| |i f b| |r|f]; simpl in *.
  - apply (bindings_sound_frame s); [done| |apply enter_stay].
    apply (enter_frames same_bindings p). by intros o q.
  - apply (bindings_sound_frame s); [done| |apply exit_stay].
    apply (exit_frames gztar same_bindings). by intros o q.
  - by apply test_directory_sound.
  - apply (bindings_sound_frame s); [done| |apply compress_stay].
    apply (compress_frames gztar same_bindings). by intros o q.
  - apply (bindings_sound_frame s); [done| |apply add_to_full_log_stay].
    by rewrite <- (add_to_full_log_self r s).
  - apply (bindings_sound_frame s); [done|by rewrite io_self|].
    rewrite io_os. apply Hp.
Qed.

(** X18: identifiers never share a directory.  In every run whose
    caller code removes no directory, each identifier that is bound is
    bound to an absolute path that exists as a directory, and two
    different identifiers are bound to two different directories. *)
Theorem run_bindings_sound la w0 cs :
  Forall polite cs → bindings_sound (run gztar cs (init la w0)).1.
Proof.
  intros Hcs.
  assert (bindings_sound (init la w0)) as Hs.
  { split; simpl; intros ??; by rewrite lookup_empty. }
  assert (absolute (top_dir (self (init la w0))) = true) as Htop by done.
  revert Hs Htop. generalize (init la w0).
  induction Hcs as [|c cs Hc _ IH]; intros s Hs Htop; simpl; [done|].
  pose proof (run_method_sound c s Hc Htop Hs) as H1. unfold state_of in H1.
  destruct (run_method_stable gztar c s) as [(_ & Ht1 & _) _]. unfold state_of in Ht1.
  destruct (run_method gztar c s) as [[r s1] t1]. simpl in H1, Ht1.
  rewrite <- Ht1 in Htop.
  specialize (IH s1 H1 Htop). by destruct (run gztar cs s1) as [s2 t2].
Qed.

End Invariants.

(** ** Failure to create, and who sets what *)

Lemma mkdtemp_from_raise d names w e w' :
  mkdtemp_from d names w = (Raise e, w') → fs w' = fs w ∧ cwd w' = cwd w.
Proof.
  revert w. induction names as [|n rest IH]; intros w; simpl.
  - by intros [= _ <-].
  - destruct (fs w !! resolve w (joinpath d ("tmp" +:+ n))); [apply IH|].
    unfold create. simpl.
    destruct (fs w !! parent (resolve w (joinpath d ("tmp" +:+ n)))) as [[]|]; [done|..];
      by intros [= _ <-].
Qed.

(** X20: when the directory for a new identifier cannot be created,
    nothing is bound.  On an entered workspace, if [mkdtemp] raises, the
    call raises the same exception, calls neither [on_create] nor the
    block nor the collaborator, leaves the object as it was (so the next
    call for the identifier tries again) and the process in the workspace
    directory. *)
Theorem test_directory_creation_fails i f b s ws e w' :
  entered s ws →
  identifiers (self s) !! i = None →
  mkdtemp ws (os s) = (Raise e, w') →
  test_directory i f b s = (Raise e, mkSt (self s) (set_cwd (parts ws) w'), []).
Proof.
  intros (Hw & Ha & Hr & Hd) Hi Hm.
  pose proof Hm as Hm'. unfold mkdtemp in Hm'.
  apply mkdtemp_from_raise in Hm' as [Hfs Hcwd].
  unfold test_directory.
  rewrite (bind_ok_silent _ _ _ _ _ (require_workspace_ok s ws Hw Hd)).
  assert (visit ws i f b s = (Raise e, mkSt (self s) w', [])) as Hv.
  { unfold visit. erewrite bind_ok_silent; [|reflexivity]. rewrite Hi.
    apply bind_raise. apply bind_raise. by apply io_run. }
  unfold try_finally. rewrite Hv. unfold leave.
  erewrite bind_ok_silent; [|reflexivity]. simpl. rewrite Hw.
  unfold logger_info_relative.
  destruct (relative_to ws (top_dir (self s))) as [q|]; [|done].
  erewrite bind_ok_silent; [|reflexivity].
  rewrite (io_run (chdir ws) _ (Ok tt) (set_cwd (parts ws) w')); [done|].
  simpl. apply chdir_cwd; [done|]. by rewrite (is_dir_absolute (os s) w' ws Ha Hfs).
Qed.

Section Fields.

Variable gztar : list (list string * node) → string.

Definition same_workspace (o o' : Workspace) : Prop := workspace o' = workspace o.
Definition same_archive (o o' : Workspace) : Prop :=
  compressed_workspace o' = compressed_workspace o.

#[local] Instance same_workspace_preorder : PreOrder same_workspace.
Proof.
  split; [by intros o; unfold same_workspace|].
  intros o1 o2 o3. unfold same_workspace. congruence.
Qed.

#[local] Instance same_archive_preorder : PreOrder same_archive.
Proof.
  split; [by intros o; unfold same_archive|].
  intros o1 o2 o3. unfold same_archive. congruence.
Qed.

Lemma test_directory_archive i f b : frames same_archive (test_directory i f b).
Proof.
  unfold test_directory, visit, leave, yield_to, logger_info_relative.
  frames_steps. apply frames_modify_self. by intros o.
Qed.

(** X21: who sets what.  Only [__enter__] changes the recorded workspace
    directory, only [compress] (by itself or inside [__exit__]) changes the
    recorded archive, and only [test_directory] changes the bindings:
    every other method leaves the field as it is, whatever it returns. *)
Theorem run_method_fields c s :
  ((∀ p, c ≠ Enter p) →
   workspace (self (state_of (run_method gztar c s))) = workspace (self s)) ∧
  (c ≠ Exit → c ≠ Compress →
   compressed_workspace (self (state_of (run_method gztar c s)))
   = compressed_workspace (self s)) ∧
  ((∀ i f b, c ≠ TestDirectory i f b) →
   identifiers (self (state_of (run_method gztar c s))) = identifiers (self s)).
Proof.
  split; [|split].
  - intros Hc. destruct c as [p| |i f b| |r|f]; simpl.
    + by destruct (Hc p).
    + apply (exit_frames gztar same_workspace). by intros o q.
    + apply (test_directory_layout i f b s).
    + apply (compress_frames gztar same_workspace). by intros o q.
    + by rewrite <- (add_to_full_log_self r s).
    + by rewrite io_self.
  - intros H1 H2. destruct c as [p| |i f b| |r|f]; simpl; try done.
    + apply (enter_frames same_archive p). by intros o q.
    + apply test_directory_archive.
    + by rewrite <- (add_to_full_log_self r s).
    + by rewrite io_self.
  - intros Hc. destruct c as [p| |i f b| |r|f]; simpl.
    + apply (enter_frames same_bindings p). by intros o q.
    + apply (exit_frames gztar same_bindings). by intros o q.
    + by destruct (Hc i f b).
    + apply (compress_frames gztar same_bindings). by intros o q.
    + by rewrite <- (add_to_full_log_self r s).
    + by rewrite io_self.
Qed.

End Fields.

(** * The environment helper of the scenario tests

    [TestFullExecution.environ] in [tests/scenarios]: a generator-based
    context manager that sets variables for the time of a block and puts
    the old values back afterwards.  [add_environment] is a dictionary: a
    list of pairs whose keys are distinct, its values already rendered by
    [str]. *)













(** * More of the concrete run *)

(** A process in [/a] with two reports and the directory of the global
    logs in place. *)
Definition world_reports : World :=
  mkWorld (<[ ["a"; "r2"] := File "two" ]> (<[ ["a"; "r1"] := File "one" ]>
             (<[ ["a"; "logs"] := Dir ]> (<[ ["a"] := Dir ]> {[ [] := Dir ]}))))
    ["a"] ∅ [].

Definition with_reports : St := init la_ok world_reports.

(** An entered workspace whose supply of temporary names is used up. *)
Definition exhausted : St :=
  state_of (enter None (init la_ok (set_tmp_names [] world0))).

Definition the_workspace : path := Path true ["a"; "workspace"].

Lemma enter_creates_workspace_witness :
  enter None constructed
  = (Ok tt,
     mkSt (set_workspace (Some (Path true (["a"] ++ ["workspace"]))) (self constructed))
          (set_cwd (["a"] ++ ["workspace"])
             (set_fs (<[ ["a"] ++ ["artifacts"] := Dir]>
                        (<[ ["a"] ++ ["logs"] := Dir]>
                           (<[ ["a"] ++ ["workspace"] := Dir]> (fs (os constructed)))))
                (os constructed))),
     []) ∧
  enter None (state_of (enter None constructed))
  = (Ok tt, state_of (enter None constructed), []).
Proof.
  apply (enter_creates_workspace constructed ["a"]).
  - repeat split.
  - vm_compute. reflexivity.
  - intros data. vm_compute. intros H. discriminate H.
  - intros data. vm_compute. intros H. discriminate H.
  - intros data. vm_compute. intros H. discriminate H.
Defined.


Lemma compress_requires_workspace_witness :
  compress demo_gztar constructed
  = (Raise (FileNotFoundError "Workspace not created."), constructed, []).
Proof.
  apply (compress_requires_workspace demo_gztar constructed). left. reflexivity.
Defined.

Lemma compress_keeps_place_witness :
  cwd (os (state_of (compress demo_gztar inside))) = cwd (os inside) ∧
  (∀ k, fs (os inside) !! k = Some Dir →
        fs (os (state_of (compress demo_gztar inside))) !! k = Some Dir) ∧
  environ (os (state_of (compress demo_gztar inside))) = environ (os inside) ∧
  layout_ws (self inside) (self (state_of (compress demo_gztar inside))) ∧
  identifiers (self (state_of (compress demo_gztar inside))) = identifiers (self inside) ∧
  (∀ e, result_of (compress demo_gztar inside) = Raise e →
        self (state_of (compress demo_gztar inside)) = self inside).
Proof.
  apply (compress_keeps_place demo_gztar inside). vm_compute. reflexivity.
Defined.

(** An archive written later: other bytes for the same members. *)
Definition demo_gztar_later (members : list (list string * node)) : string :=
  "later:" +:+ demo_gztar members.

Lemma compress_twice_witness :
  ∃ members1 members2,
    compress demo_gztar outside
    = (Ok tt,
       mkSt (set_compressed_workspace (Some (Path true (["a"] ++ ["workspace.tar.gz"])))
               (self outside))
            (set_fs (<[ ["a"] ++ ["workspace.tar.gz"] := File (demo_gztar members1)]>
                       (fs (os outside))) (os outside)),
       []) ∧
    compress demo_gztar_later (state_of (compress demo_gztar outside))
    = (Ok tt,
       mkSt (set_compressed_workspace (Some (Path true (["a"] ++ ["workspace.tar.gz"])))
               (self outside))
            (set_fs (<[ ["a"] ++ ["workspace.tar.gz"]
                       := File (demo_gztar_later members2)]>
                       (fs (os outside))) (os outside)),
       []) ∧
    ∀ k n, (k, n) ∈ members1 ↔ (k, n) ∈ members2.
Proof.
  apply (compress_twice demo_gztar demo_gztar_later outside ["a"]).
  - reflexivity.
  - reflexivity.
  - vm_compute. reflexivity.
  - reflexivity.
  - vm_compute. reflexivity.
  - vm_compute. intros H. discriminate H.
Defined.

Lemma exit_uploads_after_archive_witness :
  ∃ cw data,
    compressed_workspace (self (state_of (exit_ demo_gztar inside))) = Some cw ∧
    fs (os (state_of (exit_ demo_gztar inside))) !! parts cw = Some (File data).
Proof.
  apply (exit_uploads_after_archive demo_gztar inside).
  vm_compute. intros H. discriminate H.
Defined.

Lemma exit_requires_workspace_witness :
  exit_ demo_gztar constructed
  = (Raise (FileNotFoundError "Workspace not created."),
     mkSt (self constructed) (set_cwd ["a"] (os constructed)), []).
Proof.
  apply (exit_requires_workspace demo_gztar constructed ["a"]).
  - reflexivity.
  - vm_compute. reflexivity.
  - left. reflexivity.
Defined.

Lemma enter_then_exit_witness :
  result_of (exit_ demo_gztar (state_of (enter None constructed))) = Ok tt ∧
  cwd (os (state_of (exit_ demo_gztar (state_of (enter None constructed))))) = ["a"] ∧
  compressed_workspace
    (self (state_of (exit_ demo_gztar (state_of (enter None constructed)))))
  = Some (Path true (["a"] ++ ["workspace.tar.gz"])) ∧
  (∃ members,
     fs (os (state_of (exit_ demo_gztar (state_of (enter None constructed)))))
     !! (["a"] ++ ["workspace.tar.gz"]) = Some (File (demo_gztar members)) ∧
     (["workspace"], Dir) ∈ members) ∧
  ∃ logs artifacts,
    trace_of (exit_ demo_gztar (state_of (enter None constructed)))
    = [EvCollect (Path true (["a"] ++ ["logs"])); EvUploadLogs logs;
       EvCollect (Path true (["a"] ++ ["artifacts"])); EvUploadArtifacts artifacts;
       EvUploadArtifacts
         [Descriptor "workspace.tar.gz" (Path true (["a"] ++ ["workspace.tar.gz"]))]].
Proof.
  apply (enter_then_exit demo_gztar constructed ["a"]).
  - repeat split.
  - vm_compute. reflexivity.
  - intros data. vm_compute. intros H. discriminate H.
  - intros data. vm_compute. intros H. discriminate H.
  - intros data. vm_compute. intros H. discriminate H.
  - vm_compute. intros H. discriminate H.
  - repeat split; intros; [by eexists|reflexivity..].
Defined.

(** Reports written elsewhere: one with [CR LF] line ends, one that ends
    in a lone [CR], and one that is not text at all. *)
Definition dos_report : string := "one" +:+ String CR (String LF "two").
Definition mac_report : string := "three" +:+ String CR "".
Definition binary_report : string := String (Ascii.ascii_of_nat 255) "".

Definition world_foreign : World :=
  mkWorld (<[ ["a"; "r3"] := File binary_report ]>
             (<[ ["a"; "r2"] := File mac_report ]>
                (<[ ["a"; "r1"] := File dos_report ]>
                   (<[ ["a"; "logs"] := Dir ]> (<[ ["a"] := Dir ]> {[ [] := Dir ]})))))
    ["a"] ∅ [].

Definition with_foreign : St := init la_ok world_foreign.

Lemma add_to_full_log_appends_in_order_witness :
  add_to_full_log (Path true ["a"; "r1"]) with_foreign
  = (Ok tt,
     mkSt (self with_foreign)
       (set_fs (<[full_log_key with_foreign
                  := File (full_log_text with_foreign +:+ ("one" +:+ String LF "two"))]>
                  (fs (os with_foreign))) (os with_foreign)),
     []) ∧
  add_to_full_log (Path true ["a"; "r2"])
    (state_of (add_to_full_log (Path true ["a"; "r1"]) with_foreign))
  = (Ok tt,
     mkSt (self with_foreign)
       (set_fs (<[full_log_key with_foreign
                  := File ((full_log_text with_foreign +:+ ("one" +:+ String LF "two"))
                           +:+ ("three" +:+ String LF ""))]>
                  (fs (os with_foreign))) (os with_foreign)),
     []).
Proof.
  apply (add_to_full_log_appends_in_order (Path true ["a"; "r1"]) (Path true ["a"; "r2"])
           with_foreign dos_report mac_report).
  - vm_compute. reflexivity.
  - vm_compute. reflexivity.
  - vm_compute. reflexivity.
  - vm_compute. reflexivity.
  - vm_compute. intros H. discriminate H.
  - vm_compute. reflexivity.
  - vm_compute. intros H. discriminate H.
Defined.

Lemma add_to_full_log_undecodable_witness :
  add_to_full_log (Path true ["a"; "r3"]) with_foreign
  = (Raise UnicodeDecodeError,
     mkSt (self with_foreign)
       (set_fs (<[full_log_key with_foreign := File (full_log_text with_foreign)]>
                  (fs (os with_foreign))) (os with_foreign)),
     []).
Proof.
  apply (add_to_full_log_undecodable (Path true ["a"; "r3"]) with_foreign binary_report).
  - vm_compute. reflexivity.
  - vm_compute. reflexivity.
  - vm_compute. reflexivity.
  - vm_compute. intros H. discriminate H.
Defined.

Lemma collect_logs_prepares_witness :
  collect_logs the_workspace (io returns) inside
  = (io returns;; collect_logs_teardown the_workspace) (prepared the_workspace inside).
Proof.
  apply (collect_logs_prepares the_workspace (io returns) inside).
  repeat split.
  - intros data. vm_compute. intros H. discriminate H.
  - intros data. vm_compute. intros H. discriminate H.
Defined.

Lemma collect_logs_block_raises_witness :
  collect_logs the_workspace (io fails) inside
  = (Raise (Failure "boom"), prepared the_workspace inside, []) ∧
  (environ (os (prepared the_workspace inside))
   = environ (os (prepared the_workspace inside)) →
   environ (os (state_of (collect_logs the_workspace (io fails) inside))) !! "LOG_PATH"
   = Some (path_str (joinpath the_workspace "logs")) ∧
   environ (os (state_of (collect_logs the_workspace (io fails) inside)))
   !! "ARTIFACT_PATH"
   = Some (path_str (joinpath the_workspace "artifacts")) ∧
   environ (os (state_of (collect_logs the_workspace (io fails) inside)))
   !! "TEST_ARTIFACT_PATH"
   = Some (path_str (joinpath the_workspace "artifacts"))).
Proof.
  apply (collect_logs_block_raises the_workspace (io fails) inside (Failure "boom")
           (prepared the_workspace inside) []).
  - repeat split.
    + intros data. vm_compute. intros H. discriminate H.
    + intros data. vm_compute. intros H. discriminate H.
  - reflexivity.
Defined.

Lemma collect_logs_clears_environment_witness :
  environ (os (state_of (collect_logs the_workspace (io returns) inside)))
  = cleared (environ (os (prepared the_workspace inside))) ∧
  self (state_of (collect_logs the_workspace (io returns) inside))
  = self (prepared the_workspace inside) ∧
  ∃ t, trace_of (collect_logs the_workspace (io returns) inside) = [] ++ t.
Proof.
  apply (collect_logs_clears_environment the_workspace (io returns) inside
           (prepared the_workspace inside) []).
  - repeat split.
    + intros data. vm_compute. intros H. discriminate H.
    + intros data. vm_compute. intros H. discriminate H.
  - reflexivity.
  - vm_compute. by eexists.
  - vm_compute. by eexists.
  - vm_compute. by eexists.
Defined.

Lemma collect_logs_unset_variable_witness :
  collect_logs the_workspace (io (delenv "TEST_ARTIFACT_PATH")) inside
  = (Raise (KeyError "TEST_ARTIFACT_PATH"),
     state_of (io (delenv "TEST_ARTIFACT_PATH") (prepared the_workspace inside)), []).
Proof.
  apply (collect_logs_unset_variable the_workspace (io (delenv "TEST_ARTIFACT_PATH"))
           inside).
  - repeat split.
    + intros data. vm_compute. intros H. discriminate H.
    + intros data. vm_compute. intros H. discriminate H.
  - vm_compute. reflexivity.
  - vm_compute. reflexivity.
Defined.

Lemma collect_logs_uploads_in_sequence_witness :
  result_of (collect_logs the_workspace (io returns) (entered_with la_refuses_logs))
  = Raise (Failure "upload failed") ∧
  [EvCollect (joinpath the_workspace "logs"); EvUploadLogs []]
  = [EvCollect (joinpath the_workspace "logs"); EvUploadLogs []].
Proof.
  apply (collect_logs_uploads_in_sequence the_workspace (io returns)
           (entered_with la_refuses_logs)
           (prepared the_workspace (entered_with la_refuses_logs)) []).
  - repeat split.
    + intros data. vm_compute. intros H. discriminate H.
    + intros data. vm_compute. intros H. discriminate H.
  - reflexivity.
  - vm_compute. by eexists.
  - vm_compute. by eexists.
  - vm_compute. by eexists.
  - vm_compute. reflexivity.
  - do 2 constructor.
  - reflexivity.
Defined.

Lemma run_bindings_sound_witness :
  bindings_sound
    (run demo_gztar
       [Enter None; TestDirectory "a" (Some returns) (λ _, returns);
        TestDirectory "b" None (λ _, returns);
        TestDirectory "a" None (λ _, returns)]
       (init la_ok world0)).1.
Proof.
  apply (run_bindings_sound demo_gztar la_ok world0).
  repeat constructor; simpl; try done.
  all: unfold keeps_dirs, io_frames, dirs_stay; intros; simplify_eq; simpl; assumption.
Defined.

Lemma test_directory_creation_fails_witness :
  test_directory "t" (Some returns) (λ _, returns) exhausted
  = (Raise FileExistsError,
     mkSt (self exhausted)
       (set_cwd (parts the_workspace) (mkdtemp the_workspace (os exhausted)).2),
     []).
Proof.
  apply (test_directory_creation_fails "t" (Some returns) (λ _, returns) exhausted
           the_workspace).
  - repeat split.
  - vm_compute. reflexivity.
  - vm_compute. reflexivity.
Defined.



Lemma enter_failure_stays_put_witness :
  cwd (os (state_of (enter (Some (Path true ["b"; "w"])) constructed)))
  = cwd (os constructed).
Proof.
  eapply (proj2 (proj2 (enter_failure_stays_put (Some (Path true ["b"; "w"]))
                          constructed))).
  vm_compute. reflexivity.
Defined.

Lemma add_to_full_log_edges_witness :
  add_to_full_log (Path true ["a"; "r3"]) with_reports = (Ok tt, with_reports, []) ∧
  add_to_full_log (Path true ["a"]) with_reports
  = (Raise IsADirectoryError,
     mkSt (self with_reports)
       (set_fs (<[full_log_key with_reports := File ""]> (fs (os with_reports)))
          (os with_reports)),
     []) ∧
  ∃ msg, add_to_full_log (Path true ["a"]) constructed
         = (Raise (FileNotFoundError msg), constructed, []).
Proof.
  split; [|split].
  - apply (proj1 (add_to_full_log_edges (Path true ["a"; "r3"]) with_reports)).
    vm_compute. reflexivity.
  - apply (proj1 (proj2 (add_to_full_log_edges (Path true ["a"]) with_reports))).
    + vm_compute. reflexivity.
    + vm_compute. reflexivity.
    + vm_compute. reflexivity.
  - apply (proj2 (proj2 (add_to_full_log_edges (Path true ["a"]) constructed))).
    + vm_compute. reflexivity.
    + vm_compute. reflexivity.
    + vm_compute. reflexivity.
Defined.

Lemma run_method_fields_witness :
  workspace (self (state_of (run_method demo_gztar Compress outside)))
  = workspace (self outside) ∧
  compressed_workspace
    (self (state_of (run_method demo_gztar (TestDirectory "t" None (λ _, returns))
                       inside)))
  = compressed_workspace (self inside) ∧
  identifiers (self (state_of (run_method demo_gztar Exit inside)))
  = identifiers (self inside).
Proof.
  split; [|split].
  - apply (proj1 (run_method_fields demo_gztar Compress outside)).
    intros p H. discriminate H.
  - apply (proj1 (proj2 (run_method_fields demo_gztar
                           (TestDirectory "t" None (λ _, returns)) inside))).
    + intros H. discriminate H.
    + intros H. discriminate H.
  - apply (proj2 (proj2 (run_method_fields demo_gztar Exit inside))).
    intros i f b H. discriminate H.
Defined.

Lemma on_create_failure_keeps_binding_witness :
  ∃ d,
    identifiers (self (state_of (test_directory "t" (Some fails) (λ _, returns) inside)))
    !! "t" = Some d ∧
    trace_of (test_directory "t" (Some fails) (λ _, returns) inside)
    = [EvOnCreate (Raise (Failure "boom"))] ∧
    ∃ t,
      trace_of (test_directory "t" (Some returns) (λ _, returns)
                  (state_of (test_directory "t" (Some fails) (λ _, returns) inside)))
      = EvYield d :: t.
Proof.
  destruct (on_create_failure_keeps_binding demo_gztar inside "t" fails (λ _, returns)
              (Failure "boom")) as (d & Hd & Ht & Hlater).
  - vm_compute. reflexivity.
  - vm_compute. repeat constructor.
  - exists d. split; [exact Hd|]. split; [exact Ht|].
    destruct (Hlater [] (Some returns) (λ _, returns)) as (_ & _ & _ & _ & Hgo).
    vm_compute in Hd. injection Hd as <-.
    destruct (Hgo the_workspace) as [_ Hyield].
    + vm_compute. reflexivity.
    + vm_compute. reflexivity.
    + vm_compute. reflexivity.
    + apply Hyield. repeat split.
      * intros data. vm_compute. intros H. discriminate H.
      * intros data. vm_compute. intros H. discriminate H.
Defined.
